(** * Karnal64 kernel entry points and their console providers

    A shallow embedding of the two kernel entry files of the repository,
    [src/main.c] and [src/src/karnal64/main.cpp], with the constants of
    [karnal.h] and the external functions declared in
    [hardware_specific.h] and [kernel_memory.h].

    - Machine integers are [Z] with the wrap-around of every cast written
      out ([to_int64], [to_uint64], [to_int32]).
    - A [uint8_t*] argument is [option (list byte)]: [None] is the null
      pointer, [Some l] points at an array holding [l]; an access outside
      the array (or through null) is undefined behaviour, the [None]
      result of a provider function.
    - The provider functions pass the provider's state explicitly and
      return what they emitted on the low-level console.
    - [main] never terminates, so it is a resumption: a tree of external
      calls with an explicit [While1] node, run by a small-step function. *)

From Stdlib Require Import ZArith List Lia Bool String Ascii.
From Stdlib Require Import Strings.Byte.
Import ListNotations.
Local Open Scope Z_scope.

(* ================================================================== *)
(** ** Machine integers *)

Definition INT64_MIN : Z := - 2 ^ 63.
Definition INT64_MAX : Z := 2 ^ 63 - 1.
Definition SIZE_MAX : Z := 2 ^ 64 - 1.

(** [(int64_t) z]: two's complement wrap-around to 64 bits. *)
Definition to_int64 (z : Z) : Z := (z + 2 ^ 63) mod 2 ^ 64 - 2 ^ 63.

(** [(uint64_t) z], the cast behind [khandle_t] and [ktid_t]. *)
Definition to_uint64 (z : Z) : Z := z mod 2 ^ 64.

(** [(int) z]: wrap-around to 32 bits. *)
Definition to_int32 (z : Z) : Z := (z + 2 ^ 31) mod 2 ^ 32 - 2 ^ 31.

(** [strlen] of a string literal, as a [size_t]. *)
Definition strlen (s : string) : Z := Z.of_nat (String.length s).

(* ================================================================== *)
(** ** karnal.h: the result encoding *)

Definition kerror_t : Type := Z.
Definition khandle_t : Type := Z.
Definition ktid_t : Type := Z.

Definition KSUCCESS : kerror_t := 0.
Definition KERROR_PERMISSION_DENIED : kerror_t := -1.
Definition KERROR_NOT_FOUND : kerror_t := -2.
Definition KERROR_INVALID_ARGUMENT : kerror_t := -3.
Definition KERROR_INTERRUPTED : kerror_t := -4.
Definition KERROR_BAD_HANDLE : kerror_t := -9.
Definition KERROR_BUSY : kerror_t := -11.
Definition KERROR_OUT_OF_MEMORY : kerror_t := -12.
Definition KERROR_BAD_ADDRESS : kerror_t := -14.
Definition KERROR_ALREADY_EXISTS : kerror_t := -17.
Definition KERROR_NOT_SUPPORTED : kerror_t := -38.
Definition KERROR_NO_MESSAGE : kerror_t := -61.
Definition KERROR_INTERNAL_ERROR : kerror_t := -255.

(** The error kinds the constants stand for (the header calls the
    enumeration [KError]). *)
Inductive KError : Type :=
| PermissionDenied
| NotFound
| InvalidArgument
| Interrupted
| BadHandle
| Busy
| OutOfMemory
| BadAddress
| AlreadyExists
| NotSupported
| NoMessage
| Internal.

Definition all_KError : list KError :=
  [PermissionDenied; NotFound; InvalidArgument; Interrupted; BadHandle; Busy;
   OutOfMemory; BadAddress; AlreadyExists; NotSupported; NoMessage; Internal].

(** The constant of each kind, by the name of its [#define]. *)
Definition kerror_code (e : KError) : kerror_t :=
  match e with
  | PermissionDenied => KERROR_PERMISSION_DENIED
  | NotFound => KERROR_NOT_FOUND
  | InvalidArgument => KERROR_INVALID_ARGUMENT
  | Interrupted => KERROR_INTERRUPTED
  | BadHandle => KERROR_BAD_HANDLE
  | Busy => KERROR_BUSY
  | OutOfMemory => KERROR_OUT_OF_MEMORY
  | BadAddress => KERROR_BAD_ADDRESS
  | AlreadyExists => KERROR_ALREADY_EXISTS
  | NotSupported => KERROR_NOT_SUPPORTED
  | NoMessage => KERROR_NO_MESSAGE
  | Internal => KERROR_INTERNAL_ERROR
  end.

(* ================================================================== *)
(** ** External functions

    Everything the two files call and do not define: the hooks of
    [hardware_specific.h] and [kernel_memory.h], the Karnal64 API of
    [karnal.h], and the functions that no header of the repository
    declares ([low_level_panic], [karnal_scheduler_start],
    [low_power_idle_loop], [printf], [std::call_global_ctors],
    [std::this_thread::yield], [low_level_hardware_init_specific_device]).
    The index is the type of the value the call hands back; [printf]'s
    [int] is discarded by its only caller and left out.  Every external
    call is taken to return to its caller. *)

(** The provider structures whose address is passed to
    [karnal_resource_register_c_provider]. *)
Inductive provider_symbol : Type :=
| addr_dummy_console_provider_fns   (* main.c, a global *)
| addr_console_provider_fns.        (* main.cpp, a local of main *)

Inductive kcall : Type -> Type :=
| low_level_hardware_init : kcall unit
| low_level_interrupt_init : kcall unit
| low_level_timer_init : kcall unit
| low_level_memory_init : kcall unit
| low_level_console_putc (c : byte) : kcall unit
| low_level_panic (msg : string) : kcall unit
| low_level_hardware_init_specific_device : kcall unit
| call_global_ctors : kcall unit
| this_thread_yield : kcall unit
| printf (format : string) (precision : Z) (s : option (list byte)) : kcall unit
| karnal_init : kcall unit
| karnal_resource_register_c_provider
    (id_ptr : string) (id_len : Z) (provider_c_fns : provider_symbol) : kcall Z
| karnal_task_spawn
    (code_handle_value : khandle_t) (args_ptr : option (list byte)) (args_len : Z) : kcall Z
| karnal_scheduler_start : kcall unit
| low_power_idle_loop : kcall unit.

(** One observed call. *)
Inductive event : Type :=
| Ev {X : Type} (c : kcall X).

Definition trace : Type := list event.

(** Classifiers used to count and project calls. *)
Definition is_hardware_init (e : event) : bool :=
  match e with Ev low_level_hardware_init => true | _ => false end.
Definition is_interrupt_init (e : event) : bool :=
  match e with Ev low_level_interrupt_init => true | _ => false end.
Definition is_timer_init (e : event) : bool :=
  match e with Ev low_level_timer_init => true | _ => false end.
Definition is_memory_init (e : event) : bool :=
  match e with Ev low_level_memory_init => true | _ => false end.
Definition is_karnal_init (e : event) : bool :=
  match e with Ev karnal_init => true | _ => false end.
Definition is_register (e : event) : bool :=
  match e with Ev (karnal_resource_register_c_provider _ _ _) => true | _ => false end.
Definition is_spawn (e : event) : bool :=
  match e with Ev (karnal_task_spawn _ _ _) => true | _ => false end.

Definition count_calls (f : event -> bool) (t : trace) : nat :=
  List.length (filter f t).

(** The bytes handed to [low_level_console_putc], in order. *)
Fixpoint putc_bytes (t : trace) : list byte :=
  match t with
  | [] => []
  | Ev (low_level_console_putc c) :: t' => c :: putc_bytes t'
  | _ :: t' => putc_bytes t'
  end.

(* ================================================================== *)
(** ** Buffers and the result of a provider function *)

(** Undefined behaviour is [None]. *)
Definition bind_ub {A B : Type} (m : option A) (f : A -> option B) : option B :=
  match m with
  | Some a => f a
  | None => None
  end.

Declare Scope ub_scope.
Delimit Scope ub_scope with ub.
Notation "x <- m ;; f" := (bind_ub m (fun x => f))
  (at level 61, m at next level, right associativity) : ub_scope.

(** [buffer[i]] as an rvalue. *)
Definition load (buffer : option (list byte)) (i : Z) : option byte :=
  match buffer with
  | None => None
  | Some l => if i <? 0 then None else nth_error l (Z.to_nat i)
  end.

Fixpoint store_at (l : list byte) (i : nat) (v : byte) : option (list byte) :=
  match l, i with
  | [], _ => None
  | _ :: l', O => Some (v :: l')
  | x :: l', S i' =>
      match store_at l' i' v with
      | Some l'' => Some (x :: l'')
      | None => None
      end
  end.

(** [buffer[i] = v]. *)
Definition store (buffer : option (list byte)) (i : Z) (v : byte)
  : option (option (list byte)) :=
  match buffer with
  | None => None
  | Some l =>
      if i <? 0 then None
      else match store_at l (Z.to_nat i) v with
           | Some l' => Some (Some l')
           | None => None
           end
  end.

(** [for (size_t i = start; i < start + n; ++i) body(i)], with [n] the
    number of iterations left; the calls of the iterations in order. *)
Fixpoint for_loop (n : nat) (i : Z) (body : Z -> option trace) : option trace :=
  match n with
  | O => Some []
  | S n' =>
      match body i with
      | None => None
      | Some t =>
          match for_loop n' (i + 1) body with
          | None => None
          | Some t' => Some (t ++ t')
          end
      end
  end.

(** What a read or write leaves behind: the [int64_t] it returns, the
    provider's state, the caller's buffer and the calls it made. *)
Record io_result (S : Type) : Type := IoResult
  { retval : Z;
    state_after : S;
    buffer_after : option (list byte);
    emitted : trace }.

Arguments IoResult {S} _ _ _ _.
Arguments retval {S} _.
Arguments state_after {S} _.
Arguments buffer_after {S} _.
Arguments emitted {S} _.

(** [KarnalResourceProviderC_t]: three function pointers and the state
    they are called with. *)
Record KarnalResourceProviderC_t (S : Type) : Type :=
  { read_fn : S -> option (list byte) -> Z -> Z -> option (io_result S);
    write_fn : S -> option (list byte) -> Z -> Z -> option (io_result S);
    control_fn : S -> Z -> Z -> Z * S;
    provider_data : S }.

Arguments read_fn {S} _.
Arguments write_fn {S} _.
Arguments control_fn {S} _.
Arguments provider_data {S} _.

Definition newline : string := String (ascii_of_nat 10) EmptyString.

(* ================================================================== *)
(** ** Programs that call out and may loop forever

    [main] is written as a resumption: it returns, or makes an external
    call and continues with the value handed back, or runs
    [while (1) { body }] with the statements that follow the loop kept
    in [rest]. *)

Inductive prog (R : Type) : Type :=
| Return (r : R)
| Call {X : Type} (c : kcall X) (k : X -> prog R)
| While1 (body : prog unit) (rest : prog R).

Arguments Return {R} _.
Arguments Call {R X} _ _.
Arguments While1 {R} _ _.

Fixpoint bind {A B : Type} (p : prog A) (f : A -> prog B) : prog B :=
  match p with
  | Return a => f a
  | Call c k => Call c (fun x => bind (k x) f)
  | While1 body rest => While1 body (bind rest f)
  end.

Definition call {X : Type} (c : kcall X) : prog X := Call c Return.
Definition skip : prog unit := Return tt.
Definition while1 (body : prog unit) : prog unit := While1 body skip.
(** [if (c) { p }] *)
Definition when (c : bool) (p : prog unit) : prog unit := if c then p else skip.

Declare Scope prog_scope.
Delimit Scope prog_scope with prog.
Notation "x <- p ;; q" := (bind p (fun x => q))
  (at level 61, p at next level, right associativity) : prog_scope.
Notation "p ;; q" := (bind p (fun _ => q))
  (at level 61, right associativity) : prog_scope.

(** What the rest of the kernel answers: the values returned by
    [karnal_resource_register_c_provider] and [karnal_task_spawn]. *)
Record world : Type :=
  { register_returns : Z;
    spawn_returns : Z }.

Definition answer (w : world) {X : Type} (c : kcall X) : X :=
  match c in kcall T return T with
  | karnal_resource_register_c_provider _ _ _ => register_returns w
  | karnal_task_spawn _ _ _ => spawn_returns w
  | _ => tt
  end.

(** A configuration: what is left to run and the calls made so far. *)
Definition config : Type := (prog unit * trace)%type.

(** One step: a call is made and answered, or a loop enters its body;
    a program that has returned stays where it is. *)
Definition step (w : world) (cfg : config) : config :=
  match fst cfg with
  | Return _ => cfg
  | Call c k => (k (answer w c), snd cfg ++ [Ev c])
  | While1 body rest => (bind body (fun _ => While1 body rest), snd cfg)
  end.

Fixpoint run (n : nat) (w : world) (cfg : config) : config :=
  match n with
  | O => cfg
  | S n' => run n' w (step w cfg)
  end.

Definition returned (cfg : config) : bool :=
  match fst cfg with
  | Return _ => true
  | _ => false
  end.

(** [main] starts with nothing called yet. *)
Definition boot (main : prog unit) : config := (main, []).

(* ================================================================== *)
(** ** src/main.c: the dummy console driver *)

Module main_c.

Record DummyConsoleState_t : Type := { dummy_status : Z }.

Definition dummy_console_instance : DummyConsoleState_t := {| dummy_status := 0 |}.

Definition dummy_console_read (provider_data : DummyConsoleState_t)
    (buffer : option (list byte)) (size offset : Z)
  : option (io_result DummyConsoleState_t) :=
  let state := provider_data in
  if size =? 0 then Some (IoResult 0 state buffer [])
  else match buffer with
       | None => Some (IoResult KERROR_INVALID_ARGUMENT state buffer [])
       | Some _ =>
           (buffer' <- store buffer 0 "A"%byte ;;
            let state := {| dummy_status := 1 |} in
            Some (IoResult 1 state buffer' []))%ub
       end.

Definition dummy_console_write (provider_data : DummyConsoleState_t)
    (buffer : option (list byte)) (size offset : Z)
  : option (io_result DummyConsoleState_t) :=
  let state := provider_data in
  (out <- for_loop (Z.to_nat size) 0
            (fun i => c <- load buffer i ;; Some [Ev (low_level_console_putc c)]) ;;
   let state := {| dummy_status := 2 |} in
   let debug :=
     [Ev (printf ("Karnal Console Write Sim: %.*s" ++ newline) (to_int32 size) buffer)] in
   Some (IoResult (to_int64 size) state buffer (out ++ debug)))%ub.

Section Control.

(** [DUMMY_CONSOLE_SET_MODE] is defined nowhere in the repository and
    the block it guards is elided in the source ([{ ... }]); both are
    left open here.  The block is taken to fall through to the next
    statement. *)
Variable DUMMY_CONSOLE_SET_MODE : Z.
Variable set_mode_block : DummyConsoleState_t -> Z -> DummyConsoleState_t.

Definition dummy_console_control (provider_data : DummyConsoleState_t)
    (request arg : Z) : Z * DummyConsoleState_t :=
  let state := provider_data in
  let state :=
    if request =? DUMMY_CONSOLE_SET_MODE then set_mode_block state arg else state in
  let state := {| dummy_status := 3 |} in
  (0, state).

Definition dummy_console_provider_fns : KarnalResourceProviderC_t DummyConsoleState_t :=
  {| read_fn := dummy_console_read;
     write_fn := dummy_console_write;
     control_fn := dummy_console_control;
     provider_data := dummy_console_instance |}.

End Control.

(** [void main()].  The statements after the last loop are kept
    ([return 0;] in the source). *)
Definition main : prog unit :=
  (call low_level_hardware_init ;;
   call low_level_memory_init ;;
   call karnal_init ;;
   let console_resource_id := "karnal://device/console"%string in
   reg_result <- call (karnal_resource_register_c_provider
                         console_resource_id (strlen console_resource_id)
                         addr_dummy_console_provider_fns) ;;
   when (reg_result <? 0)
     (call (low_level_panic "Failed to register console resource!") ;;
      while1 skip) ;;
   let console_handle : khandle_t := to_uint64 reg_result in
   let init_code_handle : khandle_t := 1 in
   let init_args_ptr : option (list byte) := None in
   let init_args_len : Z := 0 in
   spawn_result <- call (karnal_task_spawn init_code_handle init_args_ptr init_args_len) ;;
   when (spawn_result <? 0)
     (call (low_level_panic "Failed to spawn initial task!") ;;
      while1 skip) ;;
   let init_task_id : ktid_t := to_uint64 spawn_result in
   call karnal_scheduler_start ;;
   call low_power_idle_loop ;;
   while1 skip ;;
   Return tt)%prog.

(** The last loop of [main], with what follows it. *)
Definition idle_loop : prog unit := While1 skip (Return tt).

Definition in_idle_loop (cfg : config) : Prop := fst cfg = idle_loop.

End main_c.

(* ================================================================== *)
(** ** src/src/karnal64/main.cpp: the C++ console device and its wrappers *)

Module main_cpp.

Module Kernel.

Record KernelConsoleDevice : Type := { internal_state : Z }.

(** The constructor: the object it builds and the calls it makes. *)
Definition KernelConsoleDevice_new : KernelConsoleDevice * trace :=
  ({| internal_state := 1 |},
   [Ev low_level_hardware_init_specific_device; Ev (low_level_console_putc "C"%byte)]).

Definition Read (this : KernelConsoleDevice)
    (buffer : option (list byte)) (size offset : Z)
  : option (io_result KernelConsoleDevice) :=
  if size =? 0 then Some (IoResult KSUCCESS this buffer [])
  else match buffer with
       | None => Some (IoResult KERROR_INVALID_ARGUMENT this buffer [])
       | Some _ =>
           (buffer' <- store buffer 0 "B"%byte ;;
            let this := {| internal_state := 2 |} in
            Some (IoResult 1 this buffer' []))%ub
       end.

Definition Write (this : KernelConsoleDevice)
    (buffer : option (list byte)) (size offset : Z)
  : option (io_result KernelConsoleDevice) :=
  if size =? 0 then Some (IoResult KSUCCESS this buffer [])
  else match buffer with
       | None => Some (IoResult KERROR_INVALID_ARGUMENT this buffer [])
       | Some _ =>
           (out <- for_loop (Z.to_nat size) 0
                     (fun i => c <- load buffer i ;; Some [Ev (low_level_console_putc c)]) ;;
            let this := {| internal_state := 3 |} in
            Some (IoResult (to_int64 size) this buffer out))%ub
       end.

Definition Control (this : KernelConsoleDevice) (request arg : Z)
  : Z * KernelConsoleDevice :=
  let this := {| internal_state := 4 |} in
  (KSUCCESS, this).

Definition kernel_console_read_wrapper (provider_data : KernelConsoleDevice)
    (buffer : option (list byte)) (size offset : Z)
  : option (io_result KernelConsoleDevice) :=
  let device := provider_data in
  Read device buffer size offset.

Definition kernel_console_write_wrapper (provider_data : KernelConsoleDevice)
    (buffer : option (list byte)) (size offset : Z)
  : option (io_result KernelConsoleDevice) :=
  let device := provider_data in
  Write device buffer size offset.

Definition kernel_console_control_wrapper (provider_data : KernelConsoleDevice)
    (request arg : Z) : Z * KernelConsoleDevice :=
  let device := provider_data in
  Control device request arg.

Definition g_console_device : KernelConsoleDevice := fst KernelConsoleDevice_new.

End Kernel.

(** The structure [main] fills in before it registers the device. *)
Definition console_provider_fns : KarnalResourceProviderC_t Kernel.KernelConsoleDevice :=
  {| read_fn := Kernel.kernel_console_read_wrapper;
     write_fn := Kernel.kernel_console_write_wrapper;
     control_fn := Kernel.kernel_console_control_wrapper;
     provider_data := Kernel.g_console_device |}.

(** [void main()]; the function ends after the last loop.  The
    constructor of [g_console_device] runs inside the external
    [std::call_global_ctors]; its calls ([Kernel.KernelConsoleDevice_new])
    are that function's, not [main]'s own. *)
Definition main : prog unit :=
  (call low_level_hardware_init ;;
   call low_level_memory_init ;;
   call call_global_ctors ;;
   call (low_level_console_putc ">"%byte) ;;
   call karnal_init ;;
   let console_resource_id := "karnal://device/console"%string in
   reg_result <- call (karnal_resource_register_c_provider
                         console_resource_id (strlen console_resource_id)
                         addr_console_provider_fns) ;;
   when (reg_result <? 0)
     (call (low_level_panic "Failed to register C++ console resource!") ;;
      while1 skip) ;;
   let console_handle : khandle_t := to_uint64 reg_result in
   let init_code_handle : khandle_t := 1 in
   let init_args_ptr : option (list byte) := None in
   let init_args_len : Z := 0 in
   spawn_result <- call (karnal_task_spawn init_code_handle init_args_ptr init_args_len) ;;
   when (spawn_result <? 0)
     (call (low_level_panic "Failed to spawn initial task!") ;;
      while1 skip) ;;
   let init_task_id : ktid_t := to_uint64 spawn_result in
   call low_power_idle_loop ;;
   while1 (call this_thread_yield))%prog.

(** The last loop of [main], at its head and inside its body. *)
Definition idle_loop : prog unit := While1 (call this_thread_yield) skip.
Definition idle_body : prog unit := Call this_thread_yield (fun _ => idle_loop).

Definition in_idle_loop (cfg : config) : Prop :=
  fst cfg = idle_loop \/ fst cfg = idle_body.

End main_cpp.

(* ================================================================== *)
(** ** Specification vocabulary *)

(** The calls [low_level_console_putc (l[0])], ..., one per byte. *)
Definition putc_calls (l : list byte) : trace :=
  map (fun c => Ev (low_level_console_putc c)) l.

(** A buffer argument a caller may pass with [size]: null, or an array
    of at least [size] bytes. *)
Definition valid_buffer (buffer : option (list byte)) (size : Z) : Prop :=
  match buffer with
  | None => True
  | Some l => size <= Z.of_nat (List.length l)
  end.

(** The boot hooks and initialisers among the calls made so far. *)
Definition is_boot_step (e : event) : bool :=
  is_hardware_init e || is_interrupt_init e || is_timer_init e
  || is_memory_init e || is_karnal_init e.

Definition boot_steps (t : trace) : trace := filter is_boot_step t.

(** The three Karnal64 start-up calls among the calls made so far. *)
Definition is_startup_step (e : event) : bool :=
  is_karnal_init e || is_register e || is_spawn e.

Definition startup_steps (t : trace) : trace := filter is_startup_step t.

(** A program that contains no call selected by [f], whatever the
    answers it gets. *)
Fixpoint never_calls (f : event -> bool) {R : Type} (p : prog R) : Prop :=
  match p with
  | Return _ => True
  | Call c k => f (Ev c) = false /\ (forall x, never_calls f (k x))
  | While1 body rest => never_calls f body /\ never_calls f rest
  end.

(** A program every path of which ends in a [while (1)] loop. *)
Fixpoint ends_in_loop {R : Type} (p : prog R) : Prop :=
  match p with
  | Return _ => False
  | Call c k => forall x, ends_in_loop (k x)
  | While1 _ _ => True
  end.

(** The calls [main] has made after [n] steps in world [w]. *)
Definition calls_after (main : prog unit) (w : world) (n : nat) : trace :=
  snd (run n w (boot main)).

(** What is left of [main] after [n] steps in world [w]. *)
Definition residual (main : prog unit) (w : world) (n : nat) : prog unit :=
  fst (run n w (boot main)).

(** The heads a program shows while it is inside a final loop: the loop
    itself, or the yield of its body. *)
Definition is_idle_state (p : prog unit) : bool :=
  match p with
  | While1 _ _ => true
  | Call c _ => match c with this_thread_yield => true | _ => false end
  | Return _ => false
  end.

(** The calls of a start-up in which registration and spawn succeed,
    up to the last loop, for [main.c] and for [main.cpp]. *)
Definition startup_calls_c : trace :=
  [Ev low_level_hardware_init; Ev low_level_memory_init; Ev karnal_init;
   Ev (karnal_resource_register_c_provider "karnal://device/console" 23
         addr_dummy_console_provider_fns);
   Ev (karnal_task_spawn 1 None 0);
   Ev karnal_scheduler_start; Ev low_power_idle_loop].

Definition startup_calls_cpp : trace :=
  [Ev low_level_hardware_init; Ev low_level_memory_init; Ev call_global_ctors;
   Ev (low_level_console_putc ">"%byte); Ev karnal_init;
   Ev (karnal_resource_register_c_provider "karnal://device/console" 23
         addr_console_provider_fns);
   Ev (karnal_task_spawn 1 None 0);
   Ev low_power_idle_loop].

(** A world in which registration and spawn both succeed. *)
Definition world_ok : world := {| register_returns := 0; spawn_returns := 1 |}.

(* ================================================================== *)
(** ** Further vocabulary: failure paths, console output, arguments *)

Definition is_panic (e : event) : bool :=
  match e with Ev (low_level_panic _) => true | _ => false end.
Definition is_putc (e : event) : bool :=
  match e with Ev (low_level_console_putc _) => true | _ => false end.
Definition is_yield (e : event) : bool :=
  match e with Ev this_thread_yield => true | _ => false end.
Definition is_scheduler_entry (e : event) : bool :=
  match e with
  | Ev karnal_scheduler_start => true
  | Ev low_power_idle_loop => true
  | _ => false
  end.

(** A call whose pointer and length arguments do not belong together:
    a registration whose [id_len] is not the length of its identifier,
    or a spawn whose argument pointer is not null or whose [args_len]
    is not 0. *)
Definition bad_arguments (e : event) : bool :=
  match e with
  | Ev (karnal_resource_register_c_provider id len _) => negb (len =? strlen id)
  | Ev (karnal_task_spawn _ args len) =>
      match args with
      | None => negb (len =? 0)
      | Some _ => true
      end
  | _ => false
  end.

(** The calls of a start-up whose registration fails. *)
Definition register_failure_calls_c : trace :=
  [Ev low_level_hardware_init; Ev low_level_memory_init; Ev karnal_init;
   Ev (karnal_resource_register_c_provider "karnal://device/console" 23
         addr_dummy_console_provider_fns);
   Ev (low_level_panic "Failed to register console resource!")].

Definition register_failure_calls_cpp : trace :=
  [Ev low_level_hardware_init; Ev low_level_memory_init; Ev call_global_ctors;
   Ev (low_level_console_putc ">"%byte); Ev karnal_init;
   Ev (karnal_resource_register_c_provider "karnal://device/console" 23
         addr_console_provider_fns);
   Ev (low_level_panic "Failed to register C++ console resource!")].

(** The calls of a start-up whose registration succeeds and whose spawn
    fails. *)
Definition spawn_failure_calls_c : trace :=
  [Ev low_level_hardware_init; Ev low_level_memory_init; Ev karnal_init;
   Ev (karnal_resource_register_c_provider "karnal://device/console" 23
         addr_dummy_console_provider_fns);
   Ev (karnal_task_spawn 1 None 0);
   Ev (low_level_panic "Failed to spawn initial task!")].

Definition spawn_failure_calls_cpp : trace :=
  [Ev low_level_hardware_init; Ev low_level_memory_init; Ev call_global_ctors;
   Ev (low_level_console_putc ">"%byte); Ev karnal_init;
   Ev (karnal_resource_register_c_provider "karnal://device/console" 23
         addr_console_provider_fns);
   Ev (karnal_task_spawn 1 None 0);
   Ev (low_level_panic "Failed to spawn initial task!")].

(** Registration answers [KERROR_ALREADY_EXISTS]. *)
Definition world_register_fails : world :=
  {| register_returns := KERROR_ALREADY_EXISTS; spawn_returns := 1 |}.

(** Registration succeeds, spawn answers [KERROR_OUT_OF_MEMORY]. *)
Definition world_spawn_fails : world :=
  {| register_returns := 0; spawn_returns := KERROR_OUT_OF_MEMORY |}.

(** What a caller of a read or write can see: the value returned, its
    buffer and the console calls; not the provider's state. *)
Definition observable {S : Type} (r : option (io_result S))
  : option (Z * option (list byte) * trace) :=
  match r with
  | Some r' => Some (retval r', buffer_after r', emitted r')
  | None => None
  end.

(* ================================================================== *)
(** ** Machine integers: facts *)

(** Writes the powers of two of the integer types as numerals, for [lia]. *)
Ltac pow_numerals :=
  change (2 ^ 64) with 18446744073709551616 in *;
  change (2 ^ 63) with 9223372036854775808 in *;
  change (2 ^ 32) with 4294967296 in *;
  change (2 ^ 31) with 2147483648 in *.

Lemma to_int64_in_range (z : Z) :
  INT64_MIN <= z <= INT64_MAX -> to_int64 z = z.
Proof.
  unfold INT64_MIN, INT64_MAX, to_int64. intros H. pow_numerals.
  rewrite Z.mod_small by lia. lia.
Qed.

Lemma to_int64_wraps (z : Z) :
  INT64_MAX < z <= SIZE_MAX -> to_int64 z = z - 2 ^ 64.
Proof.
  unfold INT64_MAX, SIZE_MAX, to_int64. intros H. pow_numerals.
  replace (z + 9223372036854775808)
    with ((z - 9223372036854775808) + 1 * 18446744073709551616) by lia.
  rewrite Z.mod_add by lia. rewrite Z.mod_small by lia. lia.
Qed.

(* ================================================================== *)
(** ** karnal.h: the error constants *)

Lemma kerror_code_range (e : KError) : INT64_MIN <= kerror_code e < 0.
Proof. destruct e; vm_compute; (split; [discriminate | reflexivity]). Qed.

Lemma kerror_code_injective (e1 e2 : KError) :
  kerror_code e1 = kerror_code e2 -> e1 = e2.
Proof. destruct e1, e2; cbn; intros H; try reflexivity; discriminate H. Qed.

Lemma all_KError_complete (e : KError) : In e all_KError.
Proof. destruct e; cbn; tauto. Qed.

(** C3: each of the twelve error kinds is a strictly negative int64
    constant, the twelve constants are pairwise distinct, success
    ([KSUCCESS]) is non-negative, and no error constant equals a
    non-negative (success) value. *)
Theorem kerror_constants_negative_distinct :
  List.length all_KError = 12%nat
  /\ (forall e, In e all_KError)
  /\ (forall e, INT64_MIN <= kerror_code e < 0)
  /\ NoDup (map kerror_code all_KError)
  /\ (forall e1 e2, kerror_code e1 = kerror_code e2 -> e1 = e2)
  /\ 0 <= KSUCCESS
  /\ (forall e v, 0 <= v -> kerror_code e <> v).
Proof.
  split; [reflexivity|].
  split; [exact all_KError_complete|].
  split; [exact kerror_code_range|].
  split.
  { cbn. repeat constructor; cbn; intros H;
      repeat (destruct H as [H|H]; [discriminate H|]); exact H. }
  split; [exact kerror_code_injective|].
  split; [unfold KSUCCESS; lia|].
  intros e v Hv Heq. pose proof (kerror_code_range e) as Hr. lia.
Qed.

(** C3 at [KERROR_BAD_HANDLE]: negative, and different from the
    success value 9 and from [KERROR_BUSY]. *)
Lemma kerror_bad_handle_negative :
  kerror_code BadHandle < 0
  /\ kerror_code BadHandle <> 9
  /\ kerror_code BadHandle <> kerror_code Busy.
Proof.
  destruct kerror_constants_negative_distinct
    as [_ [_ [Hneg [_ [Hinj [_ Hsep]]]]]].
  split; [apply Hneg|].
  split; [apply Hsep; lia|].
  intros Heq. apply Hinj in Heq. discriminate Heq.
Defined.

(* ================================================================== *)
(** ** The write loop *)

Lemma putc_bytes_app (t1 t2 : trace) :
  putc_bytes (t1 ++ t2) = putc_bytes t1 ++ putc_bytes t2.
Proof.
  induction t1 as [|e t1 IH]; [reflexivity|].
  destruct e as [X c]. destruct c; cbn; rewrite ?IH; reflexivity.
Qed.

Lemma putc_bytes_putc_calls (l : list byte) : putc_bytes (putc_calls l) = l.
Proof.
  induction l as [|c l IH]; [reflexivity|].
  cbn. f_equal. exact IH.
Qed.

Lemma load_middle (pre l : list byte) (c : byte) :
  load (Some (pre ++ c :: l)) (Z.of_nat (List.length pre)) = Some c.
Proof.
  unfold load.
  destruct (Z.ltb_spec (Z.of_nat (List.length pre)) 0) as [Hneg|_]; [lia|].
  rewrite Nat2Z.id, nth_error_app2 by apply Nat.le_refl.
  rewrite Nat.sub_diag. reflexivity.
Qed.

(** The loop over the first [n] bytes that follow [pre] in the buffer
    calls [low_level_console_putc] on each, in order. *)
Lemma for_loop_putc (n : nat) :
  forall pre l : list byte,
    (n <= List.length l)%nat ->
    for_loop n (Z.of_nat (List.length pre))
      (fun i => c <- load (Some (pre ++ l)) i ;; Some [Ev (low_level_console_putc c)])%ub
    = Some (putc_calls (firstn n l)).
Proof.
  induction n as [|n IH]; intros pre l Hn; [reflexivity|].
  destruct l as [|c l]; [cbn in Hn; lia|].
  cbn [for_loop]. rewrite load_middle. cbn [bind_ub].
  replace (Z.of_nat (List.length pre) + 1) with (Z.of_nat (List.length (pre ++ [c])))
    by (rewrite length_app; cbn; lia).
  replace (pre ++ c :: l) with ((pre ++ [c]) ++ l)
    by (rewrite <- app_assoc; reflexivity).
  rewrite IH by (cbn in Hn; lia).
  reflexivity.
Qed.

Lemma for_loop_putc_whole (l : list byte) (n : nat) :
  (n <= List.length l)%nat ->
  for_loop n 0
    (fun i => c <- load (Some l) i ;; Some [Ev (low_level_console_putc c)])%ub
  = Some (putc_calls (firstn n l)).
Proof. intros Hn. exact (for_loop_putc n [] l Hn). Qed.

(** [dummy_console_write] on an array of at least [size] bytes. *)
Lemma dummy_console_write_spec (st : main_c.DummyConsoleState_t)
    (l : list byte) (size offset : Z) :
  0 <= size <= Z.of_nat (List.length l) ->
  main_c.dummy_console_write st (Some l) size offset
  = Some (IoResult (to_int64 size) {| main_c.dummy_status := 2 |} (Some l)
            (putc_calls (firstn (Z.to_nat size) l)
             ++ [Ev (printf ("Karnal Console Write Sim: %.*s" ++ newline)
                            (to_int32 size) (Some l))])).
Proof.
  intros Hsize. unfold main_c.dummy_console_write.
  rewrite for_loop_putc_whole by lia. reflexivity.
Qed.

(** [KernelConsoleDevice::Write] on an array of at least [size] bytes. *)
Lemma Write_spec (dev : main_cpp.Kernel.KernelConsoleDevice)
    (l : list byte) (size offset : Z) :
  0 <= size <= Z.of_nat (List.length l) ->
  main_cpp.Kernel.Write dev (Some l) size offset
  = Some (IoResult (to_int64 size)
            (if size =? 0 then dev else {| main_cpp.Kernel.internal_state := 3 |})
            (Some l)
            (putc_calls (firstn (Z.to_nat size) l))).
Proof.
  intros Hsize. unfold main_cpp.Kernel.Write.
  destruct (Z.eqb_spec size 0) as [->|Hnz]; [reflexivity|].
  rewrite for_loop_putc_whole by lia. reflexivity.
Qed.

(** C1: for a non-null buffer of [n] bytes (no longer than the largest
    count an [int64_t] result can carry), each console provider's write
    with size [n] returns [n], and the bytes handed to
    [low_level_console_putc] are exactly the buffer's, one call per
    byte, in order. *)
Theorem console_write_returns_size_and_emits_buffer
    (buf : list byte) (offset : Z)
    (st : main_c.DummyConsoleState_t) (dev : main_cpp.Kernel.KernelConsoleDevice) :
  Z.of_nat (List.length buf) <= INT64_MAX ->
  (exists r,
      main_c.dummy_console_write st (Some buf) (Z.of_nat (List.length buf)) offset = Some r
      /\ retval r = Z.of_nat (List.length buf)
      /\ putc_bytes (emitted r) = buf
      /\ filter (fun e => match e with Ev (low_level_console_putc _) => true | _ => false end)
           (emitted r) = putc_calls buf)
  /\ (exists r,
      main_cpp.Kernel.Write dev (Some buf) (Z.of_nat (List.length buf)) offset = Some r
      /\ retval r = Z.of_nat (List.length buf)
      /\ putc_bytes (emitted r) = buf
      /\ emitted r = putc_calls buf).
Proof.
  intros Hmax.
  assert (Hrange : INT64_MIN <= Z.of_nat (List.length buf) <= INT64_MAX)
    by (unfold INT64_MIN; pow_numerals; lia).
  split.
  - eexists. split; [apply dummy_console_write_spec; lia|].
    cbn [retval emitted]. rewrite Nat2Z.id, firstn_all.
    split; [apply to_int64_in_range, Hrange|].
    split.
    + rewrite putc_bytes_app, putc_bytes_putc_calls. cbn. apply app_nil_r.
    + rewrite filter_app. cbn. rewrite app_nil_r.
      clear. induction buf as [|c l IH]; [reflexivity|].
      cbn. f_equal. exact IH.
  - eexists. split; [apply Write_spec; lia|].
    cbn [retval emitted]. rewrite Nat2Z.id, firstn_all.
    split; [apply to_int64_in_range, Hrange|].
    split; [apply putc_bytes_putc_calls | reflexivity].
Qed.

(** C1 at the two-byte buffer "hi". *)
Lemma console_write_hi :
  (exists r,
      main_c.dummy_console_write main_c.dummy_console_instance
        (Some ["h"%byte; "i"%byte]) 2 0 = Some r
      /\ retval r = 2
      /\ putc_bytes (emitted r) = ["h"%byte; "i"%byte]
      /\ filter (fun e => match e with Ev (low_level_console_putc _) => true | _ => false end)
           (emitted r) = putc_calls ["h"%byte; "i"%byte])
  /\ (exists r,
      main_cpp.Kernel.Write main_cpp.Kernel.g_console_device
        (Some ["h"%byte; "i"%byte]) 2 0 = Some r
      /\ retval r = 2
      /\ putc_bytes (emitted r) = ["h"%byte; "i"%byte]
      /\ emitted r = putc_calls ["h"%byte; "i"%byte]).
Proof.
  apply (console_write_returns_size_and_emits_buffer ["h"%byte; "i"%byte] 0
           main_c.dummy_console_instance main_cpp.Kernel.g_console_device).
  vm_compute. discriminate.
Defined.

(** Past [INT64_MAX] the cast of the return statement wraps: the value
    returned for such a size is negative. *)
Lemma Write_retval_wraps (dev : main_cpp.Kernel.KernelConsoleDevice)
    (l : list byte) (size offset : Z) :
  INT64_MAX < size <= SIZE_MAX ->
  size <= Z.of_nat (List.length l) ->
  exists r, main_cpp.Kernel.Write dev (Some l) size offset = Some r
            /\ retval r = size - 2 ^ 64 /\ retval r < 0.
Proof.
  intros Hbig Hlen.
  assert (Hpos : 0 <= size) by (unfold INT64_MAX in Hbig; pow_numerals; lia).
  eexists. split; [apply Write_spec; lia|].
  cbn [retval]. rewrite to_int64_wraps by exact Hbig.
  unfold SIZE_MAX in Hbig. pow_numerals. lia.
Qed.

(* ================================================================== *)
(** ** The wrappers of main.cpp *)

(** C4: each C wrapper returns exactly what the C++ method it forwards
    to returns for the same device and arguments (value, device state,
    buffer and console calls), and so do the function pointers of the
    structure that [main] registers. *)
Theorem wrappers_forward_verbatim
    (provider_data : main_cpp.Kernel.KernelConsoleDevice)
    (buffer : option (list byte)) (size offset request arg : Z) :
  main_cpp.Kernel.kernel_console_read_wrapper provider_data buffer size offset
  = main_cpp.Kernel.Read provider_data buffer size offset
  /\ main_cpp.Kernel.kernel_console_write_wrapper provider_data buffer size offset
     = main_cpp.Kernel.Write provider_data buffer size offset
  /\ main_cpp.Kernel.kernel_console_control_wrapper provider_data request arg
     = main_cpp.Kernel.Control provider_data request arg
  /\ read_fn main_cpp.console_provider_fns provider_data buffer size offset
     = main_cpp.Kernel.Read provider_data buffer size offset
  /\ write_fn main_cpp.console_provider_fns provider_data buffer size offset
     = main_cpp.Kernel.Write provider_data buffer size offset
  /\ control_fn main_cpp.console_provider_fns provider_data request arg
     = main_cpp.Kernel.Control provider_data request arg.
Proof.
  unfold main_cpp.Kernel.kernel_console_read_wrapper,
    main_cpp.Kernel.kernel_console_write_wrapper,
    main_cpp.Kernel.kernel_console_control_wrapper.
  cbn [read_fn write_fn control_fn main_cpp.console_provider_fns].
  unfold main_cpp.Kernel.kernel_console_read_wrapper,
    main_cpp.Kernel.kernel_console_write_wrapper,
    main_cpp.Kernel.kernel_console_control_wrapper.
  cbv zeta. repeat split.
Qed.

(* ================================================================== *)
(** ** The read operations *)

Lemma store_at_head (l : list byte) (v : byte) :
  l <> [] -> store_at l 0 v = Some (v :: tl l).
Proof. destruct l as [|x l]; [congruence | reflexivity]. Qed.

Lemma store_head (l : list byte) (v : byte) :
  l <> [] -> store (Some l) 0 v = Some (Some (v :: tl l)).
Proof.
  intros Hl. unfold store. cbn [Z.ltb Z.compare Z.to_nat].
  rewrite store_at_head by exact Hl. reflexivity.
Qed.

Lemma valid_buffer_nonempty (l : list byte) (size : Z) :
  valid_buffer (Some l) size -> 1 <= size -> l <> [].
Proof.
  unfold valid_buffer. intros Hv Hs ->. cbn in Hv. lia.
Qed.

(** [dummy_console_read] with a positive size on an array. *)
Lemma dummy_console_read_spec (st : main_c.DummyConsoleState_t)
    (l : list byte) (size offset : Z) :
  1 <= size -> valid_buffer (Some l) size ->
  main_c.dummy_console_read st (Some l) size offset
  = Some (IoResult 1 {| main_c.dummy_status := 1 |} (Some ("A"%byte :: tl l)) []).
Proof.
  intros Hs Hv. unfold main_c.dummy_console_read.
  destruct (Z.eqb_spec size 0) as [H0|_]; [lia|].
  rewrite store_head by (eapply valid_buffer_nonempty; eassumption).
  reflexivity.
Qed.

(** [KernelConsoleDevice::Read] with a positive size on an array. *)
Lemma Read_spec (dev : main_cpp.Kernel.KernelConsoleDevice)
    (l : list byte) (size offset : Z) :
  1 <= size -> valid_buffer (Some l) size ->
  main_cpp.Kernel.Read dev (Some l) size offset
  = Some (IoResult 1 {| main_cpp.Kernel.internal_state := 2 |} (Some ("B"%byte :: tl l)) []).
Proof.
  intros Hs Hv. unfold main_cpp.Kernel.Read.
  destruct (Z.eqb_spec size 0) as [H0|_]; [lia|].
  rewrite store_head by (eapply valid_buffer_nonempty; eassumption).
  reflexivity.
Qed.

(** A read with a null buffer and a non-zero size. *)
Lemma read_null_buffer (st : main_c.DummyConsoleState_t)
    (dev : main_cpp.Kernel.KernelConsoleDevice) (size offset : Z) :
  size <> 0 ->
  main_c.dummy_console_read st None size offset
  = Some (IoResult KERROR_INVALID_ARGUMENT st None [])
  /\ main_cpp.Kernel.Read dev None size offset
     = Some (IoResult KERROR_INVALID_ARGUMENT dev None []).
Proof.
  intros Hs. unfold main_c.dummy_console_read, main_cpp.Kernel.Read.
  destruct (Z.eqb_spec size 0) as [H0|_]; [contradiction|].
  split; reflexivity.
Qed.

(** A read of size zero, whatever the buffer. *)
Lemma read_size_zero (st : main_c.DummyConsoleState_t)
    (dev : main_cpp.Kernel.KernelConsoleDevice)
    (buffer : option (list byte)) (offset : Z) :
  main_c.dummy_console_read st buffer 0 offset = Some (IoResult 0 st buffer [])
  /\ main_cpp.Kernel.Read dev buffer 0 offset = Some (IoResult 0 dev buffer []).
Proof. split; reflexivity. Qed.

(** C6: on a size_t [size] and a buffer that is null or holds at least
    [size] bytes, each console provider's read returns, and what it
    returns is a negative error code ([KERROR_INVALID_ARGUMENT]) or a
    count between 0 and [size]. *)
Theorem console_read_count_within_size
    (st : main_c.DummyConsoleState_t) (dev : main_cpp.Kernel.KernelConsoleDevice)
    (buffer : option (list byte)) (size offset : Z) :
  0 <= size ->
  valid_buffer buffer size ->
  (exists r, main_c.dummy_console_read st buffer size offset = Some r
             /\ (retval r = KERROR_INVALID_ARGUMENT /\ retval r < 0
                 \/ 0 <= retval r <= size))
  /\ (exists r, main_cpp.Kernel.Read dev buffer size offset = Some r
                /\ (retval r = KERROR_INVALID_ARGUMENT /\ retval r < 0
                    \/ 0 <= retval r <= size)).
Proof.
  intros Hsize Hvalid.
  destruct (Z.eq_dec size 0) as [->|Hnz].
  - destruct (read_size_zero st dev buffer offset) as [Hc Hcpp].
    split; eexists; (split; [eassumption|]); right; cbn; lia.
  - destruct buffer as [l|].
    + split; eexists.
      * split; [apply dummy_console_read_spec; [lia | exact Hvalid]|].
        right. cbn. lia.
      * split; [apply Read_spec; [lia | exact Hvalid]|].
        right. cbn. lia.
    + destruct (read_null_buffer st dev size offset Hnz) as [Hc Hcpp].
      split; eexists; (split; [eassumption|]); left; cbn [retval];
        unfold KERROR_INVALID_ARGUMENT; (split; [reflexivity | lia]).
Qed.

(** C6 at a four-byte buffer read with size 4. *)
Lemma console_read_count_within_size_4 :
  (exists r, main_c.dummy_console_read main_c.dummy_console_instance
               (Some [x00; x00; x00; x00]) 4 0 = Some r
             /\ (retval r = KERROR_INVALID_ARGUMENT /\ retval r < 0
                 \/ 0 <= retval r <= 4))
  /\ (exists r, main_cpp.Kernel.Read main_cpp.Kernel.g_console_device
                  (Some [x00; x00; x00; x00]) 4 0 = Some r
                /\ (retval r = KERROR_INVALID_ARGUMENT /\ retval r < 0
                    \/ 0 <= retval r <= 4)).
Proof.
  apply (console_read_count_within_size main_c.dummy_console_instance
           main_cpp.Kernel.g_console_device (Some [x00; x00; x00; x00]) 4 0).
  - lia.
  - cbn. lia.
Defined.

(** C8: for a size of at least 1 and a non-null buffer of at least that
    many bytes, [dummy_console_read] returns 1, stores 'A' in
    [buffer[0]] and leaves the length and every other byte of the
    buffer as they were; it calls nothing. *)
Theorem dummy_console_read_writes_one_byte
    (st : main_c.DummyConsoleState_t) (l : list byte) (size offset : Z) :
  1 <= size ->
  valid_buffer (Some l) size ->
  exists l',
    main_c.dummy_console_read st (Some l) size offset
    = Some (IoResult 1 {| main_c.dummy_status := 1 |} (Some l') [])
    /\ List.length l' = List.length l
    /\ nth_error l' 0 = Some "A"%byte
    /\ (forall i, (1 <= i)%nat -> nth_error l' i = nth_error l i).
Proof.
  intros Hs Hv. exists ("A"%byte :: tl l).
  split; [apply dummy_console_read_spec; assumption|].
  pose proof (valid_buffer_nonempty l size Hv Hs) as Hne.
  destruct l as [|x l]; [congruence|]. cbn [tl].
  split; [reflexivity|]. split; [reflexivity|].
  intros i Hi. destruct i as [|i]; [lia | reflexivity].
Qed.

(** C8 at the buffer "xyz" read with size 3. *)
Lemma dummy_console_read_xyz :
  exists l',
    main_c.dummy_console_read main_c.dummy_console_instance
      (Some ["x"%byte; "y"%byte; "z"%byte]) 3 0
    = Some (IoResult 1 {| main_c.dummy_status := 1 |} (Some l') [])
    /\ List.length l' = 3%nat
    /\ nth_error l' 0 = Some "A"%byte
    /\ (forall i, (1 <= i)%nat ->
                  nth_error l' i = nth_error ["x"%byte; "y"%byte; "z"%byte] i).
Proof.
  apply (dummy_console_read_writes_one_byte main_c.dummy_console_instance
           ["x"%byte; "y"%byte; "z"%byte] 3 0).
  - lia.
  - cbn. lia.
Defined.

(** C9: with size 0 both read operations return 0 whatever the buffer
    is, null included, and leave buffer, provider state and console
    untouched; the null check answers [KERROR_INVALID_ARGUMENT] exactly
    when the buffer is null and the size is not 0. *)
Theorem console_read_size_zero_skips_buffer
    (st : main_c.DummyConsoleState_t) (dev : main_cpp.Kernel.KernelConsoleDevice)
    (offset : Z) :
  (forall buffer,
      main_c.dummy_console_read st buffer 0 offset = Some (IoResult 0 st buffer [])
      /\ main_cpp.Kernel.Read dev buffer 0 offset = Some (IoResult 0 dev buffer []))
  /\ (main_c.dummy_console_read st None 0 offset = Some (IoResult 0 st None [])
      /\ main_cpp.Kernel.Read dev None 0 offset = Some (IoResult 0 dev None []))
  /\ (forall size, 0 < size ->
      main_c.dummy_console_read st None size offset
      = Some (IoResult KERROR_INVALID_ARGUMENT st None [])
      /\ main_cpp.Kernel.Read dev None size offset
         = Some (IoResult KERROR_INVALID_ARGUMENT dev None [])).
Proof.
  split; [intros buffer; apply read_size_zero|].
  split; [apply read_size_zero|].
  intros size Hs. apply read_null_buffer. lia.
Qed.

(** C9 at a null buffer: size 0 succeeds, size 16 is refused. *)
Lemma console_read_null_0_and_16 :
  (main_c.dummy_console_read main_c.dummy_console_instance None 0 0
   = Some (IoResult 0 main_c.dummy_console_instance None [])
   /\ main_cpp.Kernel.Read main_cpp.Kernel.g_console_device None 0 0
      = Some (IoResult 0 main_cpp.Kernel.g_console_device None []))
  /\ (main_c.dummy_console_read main_c.dummy_console_instance None 16 0
      = Some (IoResult KERROR_INVALID_ARGUMENT main_c.dummy_console_instance None [])
      /\ main_cpp.Kernel.Read main_cpp.Kernel.g_console_device None 16 0
         = Some (IoResult KERROR_INVALID_ARGUMENT main_cpp.Kernel.g_console_device None [])).
Proof.
  destruct (console_read_size_zero_skips_buffer main_c.dummy_console_instance
              main_cpp.Kernel.g_console_device 0) as [_ [Hzero Hnull]].
  split; [exact Hzero|]. apply Hnull. lia.
Defined.

(* ================================================================== *)
(** ** The control operations *)

(** C10: for every request and argument both control operations return
    0, which is [KSUCCESS] and not an error code; the C wrapper of the
    C++ method does too.  [set_mode] and [block] stand for the constant
    and the elided block of [dummy_console_control]. *)
Theorem console_control_returns_success
    (set_mode : Z) (block : main_c.DummyConsoleState_t -> Z -> main_c.DummyConsoleState_t)
    (st : main_c.DummyConsoleState_t) (dev : main_cpp.Kernel.KernelConsoleDevice)
    (request arg : Z) :
  fst (main_c.dummy_console_control set_mode block st request arg) = 0
  /\ fst (main_cpp.Kernel.Control dev request arg) = 0
  /\ fst (main_cpp.Kernel.kernel_console_control_wrapper dev request arg) = 0
  /\ KSUCCESS = 0
  /\ (forall e, fst (main_c.dummy_console_control set_mode block st request arg)
                <> kerror_code e)
  /\ (forall e, fst (main_cpp.Kernel.Control dev request arg) <> kerror_code e).
Proof.
  unfold main_c.dummy_console_control, main_cpp.Kernel.kernel_console_control_wrapper,
    main_cpp.Kernel.Control.
  cbn [fst]. unfold KSUCCESS.
  repeat split; intros e; pose proof (kerror_code_range e); lia.
Qed.

(* ================================================================== *)
(** ** Running programs: general facts *)

Lemma run_add (w : world) (n m : nat) :
  forall cfg, run (n + m) w cfg = run m w (run n w cfg).
Proof.
  induction n as [|n IH]; intros cfg; [reflexivity|].
  cbn [Nat.add run]. apply IH.
Qed.

Lemma run_from (w : world) (k n : nat) (cfg : config) :
  (k <= n)%nat -> run n w cfg = run (n - k) w (run k w cfg).
Proof.
  intros Hk. rewrite <- run_add. f_equal. lia.
Qed.

Lemma run_fixed (w : world) (cfg : config) :
  step w cfg = cfg -> forall n, run n w cfg = cfg.
Proof.
  intros Hfix n. induction n as [|n IH]; [reflexivity|].
  cbn [run]. rewrite Hfix. exact IH.
Qed.

Lemma never_calls_bind (f : event -> bool) {A : Type} (p : prog A) :
  forall {B : Type} (k : A -> prog B),
    never_calls f p -> (forall a, never_calls f (k a)) -> never_calls f (bind p k).
Proof.
  induction p as [A a|A X c k' IH|A body _ rest IH]; cbn; intros B k Hp Hk.
  - apply Hk.
  - destruct Hp as [Hc Hk']. split; [exact Hc|]. intros x. apply IH; [apply Hk' | exact Hk].
  - destruct Hp as [Hb Hr]. split; [exact Hb|]. apply IH; assumption.
Qed.

Lemma never_calls_when (f : event -> bool) (c : bool) (p : prog unit) :
  never_calls f p -> never_calls f (when c p).
Proof. intros Hp. destruct c; [exact Hp | exact I]. Qed.

(** A step of a program that never calls [f] adds no call selected by
    [f] and leaves such a program. *)
Lemma step_never_calls (f : event -> bool) (w : world) (cfg : config) :
  never_calls f (fst cfg) ->
  never_calls f (fst (step w cfg)) /\ filter f (snd (step w cfg)) = filter f (snd cfg).
Proof.
  destruct cfg as [p t]. unfold step. cbn [fst snd].
  destruct p as [r|X c k|body rest]; cbn; intros Hp.
  - split; [exact I | reflexivity].
  - destruct Hp as [Hc Hk]. split; [apply Hk|].
    rewrite filter_app. cbn. rewrite Hc. apply app_nil_r.
  - destruct Hp as [Hb Hr]. split; [|reflexivity].
    apply never_calls_bind; [exact Hb|]. intros _. cbn. split; assumption.
Qed.

Lemma run_never_calls (f : event -> bool) (w : world) (n : nat) :
  forall cfg,
    never_calls f (fst cfg) ->
    never_calls f (fst (run n w cfg)) /\ filter f (snd (run n w cfg)) = filter f (snd cfg).
Proof.
  induction n as [|n IH]; intros cfg Hp; [split; [exact Hp | reflexivity]|].
  cbn [run]. destruct (step_never_calls f w cfg Hp) as [Hp' Hf].
  destruct (IH (step w cfg) Hp') as [Hp'' Hf'].
  split; [exact Hp''|]. rewrite Hf'. exact Hf.
Qed.

Lemma ends_in_loop_bind {A : Type} (p : prog A) :
  forall {B : Type} (k : A -> prog B),
    (forall a, ends_in_loop (k a)) -> ends_in_loop (bind p k).
Proof.
  induction p as [A a|A X c k' IH|A body _ rest _]; cbn; intros B k Hk.
  - apply Hk.
  - intros x. apply IH. exact Hk.
  - exact I.
Qed.

Lemma step_ends_in_loop (w : world) (cfg : config) :
  ends_in_loop (fst cfg) -> ends_in_loop (fst (step w cfg)).
Proof.
  destruct cfg as [p t]. unfold step. cbn [fst snd].
  destruct p as [r|X c k|body rest]; cbn; intros Hp.
  - contradiction.
  - apply Hp.
  - apply ends_in_loop_bind. intros _. exact I.
Qed.

Lemma run_ends_in_loop (w : world) (n : nat) :
  forall cfg, ends_in_loop (fst cfg) -> ends_in_loop (fst (run n w cfg)).
Proof.
  induction n as [|n IH]; intros cfg Hp; [exact Hp|].
  cbn [run]. apply IH, step_ends_in_loop, Hp.
Qed.

Lemma ends_in_loop_not_returned (cfg : config) :
  ends_in_loop (fst cfg) -> returned cfg = false.
Proof.
  destruct cfg as [p t]. unfold returned. cbn [fst].
  destruct p as [r|X c k|body rest]; cbn; intros Hp; [contradiction | reflexivity | reflexivity].
Qed.

(* ================================================================== *)
(** ** What the two [main]s contain *)

(** Walks down a [main], splitting at each bind, call, loop and test. *)
Ltac walk_main :=
  cbv zeta;
  repeat first
    [ apply never_calls_bind; [|intros ?]
    | apply never_calls_when
    | progress (unfold call, while1, skip; cbn [never_calls])
    | split
    | reflexivity
    | exact I
    | intros ? ].

Lemma main_c_never_calls_interrupt_init : never_calls is_interrupt_init main_c.main.
Proof. unfold main_c.main. walk_main. Qed.

Lemma main_c_never_calls_timer_init : never_calls is_timer_init main_c.main.
Proof. unfold main_c.main. walk_main. Qed.

Lemma main_cpp_never_calls_interrupt_init : never_calls is_interrupt_init main_cpp.main.
Proof. unfold main_cpp.main. walk_main. Qed.

Lemma main_cpp_never_calls_timer_init : never_calls is_timer_init main_cpp.main.
Proof. unfold main_cpp.main. walk_main. Qed.

Lemma main_c_ends_in_loop : ends_in_loop main_c.main.
Proof.
  unfold main_c.main. cbn. intros _ _ _ reg.
  destruct (reg <? 0); cbn; [intros _; exact I|].
  intros spawn. destruct (spawn <? 0); cbn; [intros _; exact I|].
  intros _ _. exact I.
Qed.

Lemma main_cpp_ends_in_loop : ends_in_loop main_cpp.main.
Proof.
  unfold main_cpp.main. cbn. intros _ _ _ _ _ reg.
  destruct (reg <? 0); cbn; [intros _; exact I|].
  intros spawn. destruct (spawn <? 0); cbn; [intros _; exact I|].
  intros _. exact I.
Qed.

(* ================================================================== *)
(** ** The start-up of main.c, step by step *)

(** Runs a [main] symbolically, deciding the two result tests with the
    given facts. *)
Ltac run_main Hr Hs :=
  unfold calls_after, residual, boot;
  cbn; rewrite ?Hr; cbn; rewrite ?Hs; cbn.

Lemma main_c_first_calls (w : world) :
  exists p, run 3 w (boot main_c.main)
            = (p, [Ev low_level_hardware_init; Ev low_level_memory_init; Ev karnal_init])
            /\ never_calls is_boot_step p.
Proof.
  eexists. split; [reflexivity|]. walk_main.
Qed.

Lemma main_c_success_before_idle (w : world) (n : nat) :
  0 <= register_returns w -> 0 <= spawn_returns w -> (n < 7)%nat ->
  is_idle_state (residual main_c.main w n) = false
  /\ calls_after main_c.main w n = firstn n startup_calls_c.
Proof.
  intros Hr Hs Hn. apply Z.ltb_ge in Hr, Hs.
  do 7 (destruct n as [|n]; [run_main Hr Hs; split; reflexivity|]).
  lia.
Qed.

Lemma main_c_success_reaches_idle (w : world) :
  0 <= register_returns w -> 0 <= spawn_returns w ->
  run 7 w (boot main_c.main) = (main_c.idle_loop, startup_calls_c).
Proof.
  intros Hr Hs. apply Z.ltb_ge in Hr, Hs. run_main Hr Hs. reflexivity.
Qed.

Lemma main_c_idle_fixed (w : world) (t : trace) :
  step w (main_c.idle_loop, t) = (main_c.idle_loop, t).
Proof. reflexivity. Qed.

Lemma main_c_success_idle (w : world) (n : nat) :
  0 <= register_returns w -> 0 <= spawn_returns w -> (7 <= n)%nat ->
  run n w (boot main_c.main) = (main_c.idle_loop, startup_calls_c).
Proof.
  intros Hr Hs Hn. rewrite (run_from w 7 n) by exact Hn.
  rewrite main_c_success_reaches_idle by assumption.
  apply run_fixed, main_c_idle_fixed.
Qed.

Lemma main_c_idle_closed (w : world) (m : nat) (cfg : config) :
  main_c.in_idle_loop cfg -> main_c.in_idle_loop (run m w cfg).
Proof.
  unfold main_c.in_idle_loop. destruct cfg as [p t]. cbn [fst]. intros ->.
  rewrite run_fixed by apply main_c_idle_fixed. reflexivity.
Qed.

(* ================================================================== *)
(** ** The start-up of main.cpp, step by step *)

Lemma main_cpp_first_calls (w : world) :
  exists p, run 5 w (boot main_cpp.main)
            = (p, [Ev low_level_hardware_init; Ev low_level_memory_init;
                   Ev call_global_ctors; Ev (low_level_console_putc ">"%byte);
                   Ev karnal_init])
            /\ never_calls is_boot_step p.
Proof.
  eexists. split; [reflexivity|]. walk_main.
Qed.

Lemma main_cpp_success_before_idle (w : world) (n : nat) :
  0 <= register_returns w -> 0 <= spawn_returns w -> (n < 8)%nat ->
  is_idle_state (residual main_cpp.main w n) = false
  /\ calls_after main_cpp.main w n = firstn n startup_calls_cpp.
Proof.
  intros Hr Hs Hn. apply Z.ltb_ge in Hr, Hs.
  do 8 (destruct n as [|n]; [run_main Hr Hs; split; reflexivity|]).
  lia.
Qed.

Lemma main_cpp_success_reaches_idle (w : world) :
  0 <= register_returns w -> 0 <= spawn_returns w ->
  run 8 w (boot main_cpp.main) = (main_cpp.idle_loop, startup_calls_cpp).
Proof.
  intros Hr Hs. apply Z.ltb_ge in Hr, Hs. run_main Hr Hs. reflexivity.
Qed.

(** Inside the last loop of main.cpp a step stays inside it and adds
    at most one yield. *)
Lemma main_cpp_idle_step (w : world) (cfg : config) :
  main_cpp.in_idle_loop cfg ->
  main_cpp.in_idle_loop (step w cfg)
  /\ exists j, snd (step w cfg) = snd cfg ++ repeat (Ev this_thread_yield) j.
Proof.
  unfold main_cpp.in_idle_loop. destruct cfg as [p t]. cbn [fst snd].
  intros [-> | ->].
  - split; [right; reflexivity|]. exists 0%nat. cbn. symmetry. apply app_nil_r.
  - split; [left; reflexivity|]. exists 1%nat. reflexivity.
Qed.

Lemma main_cpp_idle_closed (w : world) (m : nat) :
  forall cfg,
    main_cpp.in_idle_loop cfg ->
    main_cpp.in_idle_loop (run m w cfg)
    /\ exists j, snd (run m w cfg) = snd cfg ++ repeat (Ev this_thread_yield) j.
Proof.
  induction m as [|m IH]; intros cfg Hin.
  - split; [exact Hin|]. exists 0%nat. cbn. symmetry. apply app_nil_r.
  - cbn [run]. destruct (main_cpp_idle_step w cfg Hin) as [Hin' [j0 Hj0]].
    destruct (IH (step w cfg) Hin') as [Hin'' [j Hj]].
    split; [exact Hin''|]. exists (j0 + j)%nat.
    rewrite Hj, Hj0, <- app_assoc, repeat_app. reflexivity.
Qed.

Lemma in_idle_loop_c_state (cfg : config) :
  main_c.in_idle_loop cfg -> is_idle_state (fst cfg) = true.
Proof. unfold main_c.in_idle_loop. intros ->. reflexivity. Qed.

Lemma in_idle_loop_cpp_state (cfg : config) :
  main_cpp.in_idle_loop cfg -> is_idle_state (fst cfg) = true.
Proof. unfold main_cpp.in_idle_loop. intros [-> | ->]; reflexivity. Qed.

Lemma startup_steps_yields (t : trace) (j : nat) :
  startup_steps (t ++ repeat (Ev this_thread_yield) j) = startup_steps t.
Proof.
  unfold startup_steps. rewrite filter_app.
  replace (filter is_startup_step (repeat (Ev this_thread_yield) j)) with (@nil event).
  - apply app_nil_r.
  - induction j as [|j IH]; [reflexivity | exact IH].
Qed.

(* ================================================================== *)
(** ** Boot hooks *)

Lemma count_calls_never (f : event -> bool) (main : prog unit) (w : world) (n : nat) :
  never_calls f main -> count_calls f (calls_after main w n) = 0%nat.
Proof.
  intros Hmain. unfold count_calls, calls_after.
  destruct (run_never_calls f w n (boot main) Hmain) as [_ Hf].
  rewrite Hf. reflexivity.
Qed.

Lemma boot_steps_frozen (main : prog unit) (w : world) (k n : nat)
    (p : prog unit) (t : trace) :
  run k w (boot main) = (p, t) -> never_calls is_boot_step p -> (k <= n)%nat ->
  boot_steps (calls_after main w n) = boot_steps t.
Proof.
  intros Hk Hp Hn. unfold boot_steps, calls_after.
  rewrite (run_from w k n) by exact Hn. rewrite Hk.
  destruct (run_never_calls is_boot_step w (n - k) (p, t) Hp) as [_ Hf].
  exact Hf.
Qed.

(** C2, as stated, fails: in a start-up where registration and spawn
    succeed, followed up to the last loop (7 steps of main.c, 8 of
    main.cpp), [low_level_interrupt_init] and [low_level_timer_init]
    are called zero times, not once. *)
Lemma boot_hooks_interrupt_timer_not_once :
  count_calls is_interrupt_init (calls_after main_c.main world_ok 7) <> 1%nat
  /\ count_calls is_timer_init (calls_after main_c.main world_ok 7) <> 1%nat
  /\ count_calls is_interrupt_init (calls_after main_cpp.main world_ok 8) <> 1%nat
  /\ count_calls is_timer_init (calls_after main_cpp.main world_ok 8) <> 1%nat.
Proof.
  repeat split; vm_compute; discriminate.
Qed.

(** C2, amended: at every point of every execution of either [main],
    [low_level_interrupt_init] and [low_level_timer_init] have not been
    called; the boot steps made so far are an initial part of
    hardware init, memory init, [karnal_init], in that order; and once
    [karnal_init] has been called (3 steps into main.c, 5 into
    main.cpp) they are exactly these three, each once, for good. *)
Theorem boot_calls_hardware_memory_then_karnal_init (w : world) (n : nat) :
  (count_calls is_interrupt_init (calls_after main_c.main w n) = 0%nat
   /\ count_calls is_timer_init (calls_after main_c.main w n) = 0%nat
   /\ (exists k, boot_steps (calls_after main_c.main w n)
                 = firstn k [Ev low_level_hardware_init; Ev low_level_memory_init;
                             Ev karnal_init])
   /\ ((3 <= n)%nat ->
       boot_steps (calls_after main_c.main w n)
       = [Ev low_level_hardware_init; Ev low_level_memory_init; Ev karnal_init]))
  /\ (count_calls is_interrupt_init (calls_after main_cpp.main w n) = 0%nat
      /\ count_calls is_timer_init (calls_after main_cpp.main w n) = 0%nat
      /\ (exists k, boot_steps (calls_after main_cpp.main w n)
                    = firstn k [Ev low_level_hardware_init; Ev low_level_memory_init;
                                Ev karnal_init])
      /\ ((5 <= n)%nat ->
          boot_steps (calls_after main_cpp.main w n)
          = [Ev low_level_hardware_init; Ev low_level_memory_init; Ev karnal_init])).
Proof.
  destruct (main_c_first_calls w) as [pc [Hrunc Hpc]].
  destruct (main_cpp_first_calls w) as [px [Hrunx Hpx]].
  split.
  - split; [apply count_calls_never, main_c_never_calls_interrupt_init|].
    split; [apply count_calls_never, main_c_never_calls_timer_init|].
    assert (Hlate : (3 <= n)%nat ->
                    boot_steps (calls_after main_c.main w n)
                    = [Ev low_level_hardware_init; Ev low_level_memory_init; Ev karnal_init]).
    { intros Hn. rewrite (boot_steps_frozen _ w 3 n pc _ Hrunc Hpc Hn). reflexivity. }
    split; [|exact Hlate].
    destruct (Nat.le_gt_cases 3 n) as [Hn|Hn].
    + exists 3%nat. apply Hlate, Hn.
    + exists n. clear -Hn.
      do 3 (destruct n as [|n]; [reflexivity|]). lia.
  - split; [apply count_calls_never, main_cpp_never_calls_interrupt_init|].
    split; [apply count_calls_never, main_cpp_never_calls_timer_init|].
    assert (Hlate : (5 <= n)%nat ->
                    boot_steps (calls_after main_cpp.main w n)
                    = [Ev low_level_hardware_init; Ev low_level_memory_init; Ev karnal_init]).
    { intros Hn. rewrite (boot_steps_frozen _ w 5 n px _ Hrunx Hpx Hn). reflexivity. }
    split; [|exact Hlate].
    destruct (Nat.le_gt_cases 5 n) as [Hn|Hn].
    + exists 3%nat. apply Hlate, Hn.
    + clear -Hn.
      destruct n as [|n]; [exists 0%nat; reflexivity|].
      destruct n as [|n]; [exists 1%nat; reflexivity|].
      destruct n as [|n]; [exists 2%nat; reflexivity|].
      destruct n as [|n]; [exists 2%nat; reflexivity|].
      destruct n as [|n]; [exists 2%nat; reflexivity|].
      lia.
Qed.

(** The amended C2 at the end of a successful start-up (step 8 of
    either [main]). *)
Lemma boot_calls_at_idle :
  boot_steps (calls_after main_c.main world_ok 8)
  = [Ev low_level_hardware_init; Ev low_level_memory_init; Ev karnal_init]
  /\ boot_steps (calls_after main_cpp.main world_ok 8)
     = [Ev low_level_hardware_init; Ev low_level_memory_init; Ev karnal_init].
Proof.
  destruct (boot_calls_hardware_memory_then_karnal_init world_ok 8)
    as [[_ [_ [_ Hc]]] [_ [_ [_ Hx]]]].
  split; [apply Hc | apply Hx]; lia.
Defined.

(* ================================================================== *)
(** ** Start-up order *)

(** C5: when registration and spawn both return a non-negative value,
    [main] reaches its last loop, and whenever it is there the Karnal64
    start-up calls made are exactly [karnal_init], then the
    registration of "karnal://device/console" with the file's console
    provider, then the spawn of the initial task; before that, the
    start-up calls made are an initial part of this sequence (main.c: the
    calls from the third on; main.cpp: from the fifth on); main.c has
    then called exactly [startup_calls_c], and main.cpp
    [startup_calls_cpp] followed by yields of the loop. *)
Theorem startup_order_on_success (w : world) :
  0 <= register_returns w ->
  0 <= spawn_returns w ->
  ((exists n, main_c.in_idle_loop (run n w (boot main_c.main)))
   /\ (forall n, main_c.in_idle_loop (run n w (boot main_c.main)) ->
         startup_steps (calls_after main_c.main w n)
         = [Ev karnal_init;
            Ev (karnal_resource_register_c_provider "karnal://device/console" 23
                  addr_dummy_console_provider_fns);
            Ev (karnal_task_spawn 1 None 0)]
         /\ calls_after main_c.main w n = startup_calls_c)
   /\ (forall n, startup_steps (calls_after main_c.main w n)
         = firstn (n - 2)
             [Ev karnal_init;
              Ev (karnal_resource_register_c_provider "karnal://device/console" 23
                    addr_dummy_console_provider_fns);
              Ev (karnal_task_spawn 1 None 0)]))
  /\ ((exists n, main_cpp.in_idle_loop (run n w (boot main_cpp.main)))
      /\ (forall n, main_cpp.in_idle_loop (run n w (boot main_cpp.main)) ->
            startup_steps (calls_after main_cpp.main w n)
            = [Ev karnal_init;
               Ev (karnal_resource_register_c_provider "karnal://device/console" 23
                     addr_console_provider_fns);
               Ev (karnal_task_spawn 1 None 0)]
            /\ exists j, calls_after main_cpp.main w n
                         = startup_calls_cpp ++ repeat (Ev this_thread_yield) j)
      /\ (forall n, startup_steps (calls_after main_cpp.main w n)
            = firstn (n - 4)
                [Ev karnal_init;
                 Ev (karnal_resource_register_c_provider "karnal://device/console" 23
                       addr_console_provider_fns);
                 Ev (karnal_task_spawn 1 None 0)])).
Proof.
  intros Hr Hs. split.
  - (* main.c *)
    split.
    { exists 7%nat. unfold main_c.in_idle_loop.
      rewrite main_c_success_reaches_idle by assumption. reflexivity. }
    split.
    + intros n Hin. destruct (Nat.lt_ge_cases n 7) as [Hn|Hn].
      * destruct (main_c_success_before_idle w n Hr Hs Hn) as [Hstate _].
        apply in_idle_loop_c_state in Hin. unfold residual in Hstate. congruence.
      * unfold calls_after. rewrite main_c_success_idle by assumption.
        split; reflexivity.
    + intros n. destruct (Nat.lt_ge_cases n 7) as [Hn|Hn].
      * destruct (main_c_success_before_idle w n Hr Hs Hn) as [_ ->].
        do 7 (destruct n as [|n]; [reflexivity|]). lia.
      * unfold calls_after. rewrite main_c_success_idle by assumption.
        rewrite firstn_all2 by (cbn; lia). reflexivity.
  - (* main.cpp *)
    assert (Hlate : forall n, (8 <= n)%nat ->
              main_cpp.in_idle_loop (run n w (boot main_cpp.main))
              /\ exists j, calls_after main_cpp.main w n
                           = startup_calls_cpp ++ repeat (Ev this_thread_yield) j).
    { intros n Hn. unfold calls_after. rewrite (run_from w 8 n) by exact Hn.
      rewrite main_cpp_success_reaches_idle by assumption.
      apply main_cpp_idle_closed. left. reflexivity. }
    split.
    { exists 8%nat. apply Hlate. apply Nat.le_refl. }
    split.
    + intros n Hin. destruct (Nat.lt_ge_cases n 8) as [Hn|Hn].
      * destruct (main_cpp_success_before_idle w n Hr Hs Hn) as [Hstate _].
        apply in_idle_loop_cpp_state in Hin. unfold residual in Hstate. congruence.
      * destruct (Hlate n Hn) as [_ [j Hj]].
        split; [|exists j; exact Hj].
        rewrite Hj, startup_steps_yields. reflexivity.
    + intros n. destruct (Nat.lt_ge_cases n 8) as [Hn|Hn].
      * destruct (main_cpp_success_before_idle w n Hr Hs Hn) as [_ ->].
        do 8 (destruct n as [|n]; [reflexivity|]). lia.
      * destruct (Hlate n Hn) as [_ [j Hj]].
        rewrite Hj, startup_steps_yields.
        rewrite firstn_all2 by (cbn; lia). reflexivity.
Qed.

(** C5 in the world where registration returns handle 0 and spawn
    returns task 1. *)
Lemma startup_order_world_ok :
  main_c.in_idle_loop (run 7 world_ok (boot main_c.main))
  /\ startup_steps (calls_after main_c.main world_ok 7)
     = [Ev karnal_init;
        Ev (karnal_resource_register_c_provider "karnal://device/console" 23
              addr_dummy_console_provider_fns);
        Ev (karnal_task_spawn 1 None 0)]
  /\ main_cpp.in_idle_loop (run 8 world_ok (boot main_cpp.main))
  /\ startup_steps (calls_after main_cpp.main world_ok 8)
     = [Ev karnal_init;
        Ev (karnal_resource_register_c_provider "karnal://device/console" 23
              addr_console_provider_fns);
        Ev (karnal_task_spawn 1 None 0)].
Proof.
  assert (Hr : 0 <= register_returns world_ok) by (cbn; lia).
  assert (Hs : 0 <= spawn_returns world_ok) by (cbn; lia).
  destruct (startup_order_on_success world_ok Hr Hs)
    as [[_ [Hc _]] [_ [Hx _]]].
  assert (Hinc : main_c.in_idle_loop (run 7 world_ok (boot main_c.main)))
    by reflexivity.
  assert (Hinx : main_cpp.in_idle_loop (run 8 world_ok (boot main_cpp.main)))
    by (left; reflexivity).
  split; [exact Hinc|].
  split; [exact (proj1 (Hc 7%nat Hinc))|].
  split; [exact Hinx|].
  exact (proj1 (Hx 8%nat Hinx)).
Defined.

(* ================================================================== *)
(** ** The last loop *)

(** C7: once [main] is in its last loop it stays in it at every later
    step, so it has not returned and the statement after the loop
    ([rest] of the [While1]) is never the program left to run. *)
Theorem idle_loop_never_exits (w : world) (n m : nat) :
  (main_c.in_idle_loop (run n w (boot main_c.main)) ->
   main_c.in_idle_loop (run (n + m) w (boot main_c.main))
   /\ returned (run (n + m) w (boot main_c.main)) = false)
  /\ (main_cpp.in_idle_loop (run n w (boot main_cpp.main)) ->
      main_cpp.in_idle_loop (run (n + m) w (boot main_cpp.main))
      /\ returned (run (n + m) w (boot main_cpp.main)) = false).
Proof.
  split; intros Hin; rewrite run_add.
  - pose proof (main_c_idle_closed w m _ Hin) as Hin'.
    split; [exact Hin'|].
    unfold returned. rewrite Hin'. reflexivity.
  - destruct (main_cpp_idle_closed w m _ Hin) as [Hin' _].
    split; [exact Hin'|].
    unfold returned. destruct Hin' as [-> | ->]; reflexivity.
Qed.

(** C7 from the step at which a successful start-up has reached the
    loop, five steps on. *)
Lemma idle_loop_never_exits_world_ok :
  (main_c.in_idle_loop (run (8 + 5) world_ok (boot main_c.main))
   /\ returned (run (8 + 5) world_ok (boot main_c.main)) = false)
  /\ (main_cpp.in_idle_loop (run (8 + 5) world_ok (boot main_cpp.main))
      /\ returned (run (8 + 5) world_ok (boot main_cpp.main)) = false).
Proof.
  destruct (idle_loop_never_exits world_ok 8 5) as [Hc Hx].
  split; [apply Hc; reflexivity | apply Hx; left; reflexivity].
Defined.

(** Neither [main] ever returns, in any world, the failure paths
    included: every path ends in a [while (1)]. *)
Theorem main_never_returns (w : world) (n : nat) :
  returned (run n w (boot main_c.main)) = false
  /\ returned (run n w (boot main_cpp.main)) = false.
Proof.
  split; apply ends_in_loop_not_returned, run_ends_in_loop.
  - exact main_c_ends_in_loop.
  - exact main_cpp_ends_in_loop.
Qed.

(* ================================================================== *)
(** ** Reads: which bytes they touch *)

Lemma store_empty (v : byte) : store (Some []) 0 v = None.
Proof. reflexivity. Qed.

(** X2: a read with a non-zero size needs one byte of buffer and no
    more: on any non-empty array, however short against [size], both
    reads return 1, store their byte ('A', 'B') at index 0, keep the
    rest of the array and call nothing. *)
Theorem console_read_touches_first_byte_only
    (st : main_c.DummyConsoleState_t) (dev : main_cpp.Kernel.KernelConsoleDevice)
    (l : list byte) (size offset : Z) :
  size <> 0 ->
  l <> [] ->
  main_c.dummy_console_read st (Some l) size offset
  = Some (IoResult 1 {| main_c.dummy_status := 1 |} (Some ("A"%byte :: tl l)) [])
  /\ main_cpp.Kernel.Read dev (Some l) size offset
     = Some (IoResult 1 {| main_cpp.Kernel.internal_state := 2 |}
               (Some ("B"%byte :: tl l)) []).
Proof.
  intros Hs Hl. unfold main_c.dummy_console_read, main_cpp.Kernel.Read.
  destruct (Z.eqb_spec size 0) as [H0|_]; [contradiction|].
  rewrite !store_head by exact Hl. split; reflexivity.
Qed.

(** X2 at a one-byte buffer read with size 4096. *)
Lemma console_read_one_byte_buffer :
  main_c.dummy_console_read main_c.dummy_console_instance (Some ["?"%byte]) 4096 0
  = Some (IoResult 1 {| main_c.dummy_status := 1 |} (Some ["A"%byte]) [])
  /\ main_cpp.Kernel.Read main_cpp.Kernel.g_console_device (Some ["?"%byte]) 4096 0
     = Some (IoResult 1 {| main_cpp.Kernel.internal_state := 2 |} (Some ["B"%byte]) []).
Proof.
  apply (console_read_touches_first_byte_only main_c.dummy_console_instance
           main_cpp.Kernel.g_console_device ["?"%byte] 4096 0).
  - lia.
  - discriminate.
Defined.

(** X3: the only call on which a read is undefined is a non-zero size
    with a non-null array of no bytes (the store to [buffer[0]] is out
    of bounds); on every other buffer and size both reads return. *)
Theorem console_read_undefined_iff
    (st : main_c.DummyConsoleState_t) (dev : main_cpp.Kernel.KernelConsoleDevice)
    (buffer : option (list byte)) (size offset : Z) :
  (main_c.dummy_console_read st buffer size offset = None
   <-> size <> 0 /\ buffer = Some [])
  /\ (main_cpp.Kernel.Read dev buffer size offset = None
      <-> size <> 0 /\ buffer = Some []).
Proof.
  unfold main_c.dummy_console_read, main_cpp.Kernel.Read.
  destruct (Z.eqb_spec size 0) as [H0|Hnz].
  - split; (split; [discriminate | intros [Hs _]; contradiction]).
  - destruct buffer as [[|x l]|].
    + rewrite !store_empty. cbn [bind_ub].
      split; (split; [intros _; split; [exact Hnz | reflexivity] | reflexivity]).
    + rewrite !store_head by discriminate. cbn [bind_ub].
      split; (split; [discriminate | intros [_ H]; discriminate H]).
    + split; (split; [discriminate | intros [_ H]; discriminate H]).
Qed.

(* ================================================================== *)
(** ** Writes: bounds, null buffers, short and empty writes *)

Lemma load_end (l : list byte) : load (Some l) (Z.of_nat (List.length l)) = None.
Proof.
  unfold load.
  destruct (Z.ltb_spec (Z.of_nat (List.length l)) 0) as [Hneg|_]; [reflexivity|].
  rewrite Nat2Z.id. apply nth_error_None, Nat.le_refl.
Qed.

(** The loop runs off the end of an array shorter than its bound. *)
Lemma for_loop_putc_overrun (n : nat) :
  forall pre l : list byte,
    (List.length l < n)%nat ->
    for_loop n (Z.of_nat (List.length pre))
      (fun i => c <- load (Some (pre ++ l)) i ;; Some [Ev (low_level_console_putc c)])%ub
    = None.
Proof.
  induction n as [|n IH]; intros pre l Hn; [lia|].
  destruct l as [|c l].
  - cbn [for_loop]. rewrite app_nil_r, load_end. reflexivity.
  - cbn [for_loop]. rewrite load_middle. cbn [bind_ub].
    replace (Z.of_nat (List.length pre) + 1) with (Z.of_nat (List.length (pre ++ [c])))
      by (rewrite length_app; cbn; lia).
    replace (pre ++ c :: l) with ((pre ++ [c]) ++ l)
      by (rewrite <- app_assoc; reflexivity).
    rewrite IH by (cbn in Hn; lia).
    reflexivity.
Qed.

Lemma for_loop_putc_null (n : nat) (i : Z) :
  for_loop (S n) i
    (fun i => c <- load None i ;; Some [Ev (low_level_console_putc c)])%ub
  = None.
Proof. reflexivity. Qed.

Lemma write_loop_overrun (l : list byte) (size : Z) :
  Z.of_nat (List.length l) < size ->
  for_loop (Z.to_nat size) 0
    (fun i => c <- load (Some l) i ;; Some [Ev (low_level_console_putc c)])%ub
  = None.
Proof.
  intros Hlen. apply (for_loop_putc_overrun (Z.to_nat size) [] l). lia.
Qed.

(** X4: when a write is undefined.  [KernelConsoleDevice::Write] is
    undefined exactly when the array is shorter than [size] (it reads
    [buffer[0..size-1]]); [dummy_console_write] also when the buffer is
    null and [size] is positive, since it has no null check. *)
Theorem console_write_undefined_iff
    (st : main_c.DummyConsoleState_t) (dev : main_cpp.Kernel.KernelConsoleDevice)
    (buffer : option (list byte)) (size offset : Z) :
  0 <= size ->
  (main_c.dummy_console_write st buffer size offset = None
   <-> (buffer = None /\ 0 < size)
       \/ (exists l, buffer = Some l /\ Z.of_nat (List.length l) < size))
  /\ (main_cpp.Kernel.Write dev buffer size offset = None
      <-> exists l, buffer = Some l /\ Z.of_nat (List.length l) < size).
Proof.
  intros Hsize. destruct buffer as [l|].
  - destruct (Z.lt_ge_cases (Z.of_nat (List.length l)) size) as [Hshort|Hfits].
    + split.
      * unfold main_c.dummy_console_write. rewrite write_loop_overrun by exact Hshort.
        split; [intros _; right; exists l; split; [reflexivity | exact Hshort]
               | reflexivity].
      * unfold main_cpp.Kernel.Write.
        destruct (Z.eqb_spec size 0) as [H0|_]; [lia|].
        rewrite write_loop_overrun by exact Hshort.
        split; [intros _; exists l; split; [reflexivity | exact Hshort]
               | reflexivity].
    + split.
      * rewrite dummy_console_write_spec by lia.
        split; [discriminate|].
        intros [[H _] | [l' [H Hl']]]; [discriminate H|].
        injection H as <-. lia.
      * rewrite Write_spec by lia.
        split; [discriminate|].
        intros [l' [H Hl']]. injection H as <-. lia.
  - split.
    + unfold main_c.dummy_console_write.
      destruct (Z.eq_dec size 0) as [->|Hnz].
      * cbn. split; [discriminate|].
        intros [[_ H] | [l [H _]]]; [lia | discriminate H].
      * destruct (Z.to_nat size) as [|k] eqn:Hk; [lia|].
        rewrite for_loop_putc_null.
        split; [intros _; left; split; [reflexivity | lia] | reflexivity].
    + unfold main_cpp.Kernel.Write.
      destruct (size =? 0);
        (split; [discriminate | intros [l [H _]]; discriminate H]).
Qed.

(** X4 at a null buffer with size 1, and at "hi" written with size 3. *)
Lemma console_write_undefined_cases :
  main_c.dummy_console_write main_c.dummy_console_instance None 1 0 = None
  /\ main_c.dummy_console_write main_c.dummy_console_instance
       (Some ["h"%byte; "i"%byte]) 3 0 = None
  /\ main_cpp.Kernel.Write main_cpp.Kernel.g_console_device
       (Some ["h"%byte; "i"%byte]) 3 0 = None.
Proof.
  assert (H1 : 0 <= 1) by lia. assert (H3 : 0 <= 3) by lia.
  split.
  - apply (proj1 (console_write_undefined_iff main_c.dummy_console_instance
                    main_cpp.Kernel.g_console_device None 1 0 H1)).
    left. split; [reflexivity | lia].
  - split.
    + apply (proj1 (console_write_undefined_iff main_c.dummy_console_instance
                      main_cpp.Kernel.g_console_device (Some ["h"%byte; "i"%byte]) 3 0 H3)).
      right. eexists. split; [reflexivity | cbn; lia].
    + apply (proj2 (console_write_undefined_iff main_c.dummy_console_instance
                      main_cpp.Kernel.g_console_device (Some ["h"%byte; "i"%byte]) 3 0 H3)).
      eexists. split; [reflexivity | cbn; lia].
Defined.

(** X5: a short write.  With [size] no larger than the array (and than
    [INT64_MAX]) both writes return [size], hand exactly the first
    [size] bytes to [low_level_console_putc] in order, and leave the
    caller's buffer as it was. *)
Theorem console_write_emits_first_size_bytes
    (st : main_c.DummyConsoleState_t) (dev : main_cpp.Kernel.KernelConsoleDevice)
    (l : list byte) (size offset : Z) :
  0 <= size <= Z.of_nat (List.length l) ->
  size <= INT64_MAX ->
  (exists r, main_c.dummy_console_write st (Some l) size offset = Some r
             /\ retval r = size
             /\ putc_bytes (emitted r) = firstn (Z.to_nat size) l
             /\ count_calls is_putc (emitted r) = Z.to_nat size
             /\ buffer_after r = Some l)
  /\ (exists r, main_cpp.Kernel.Write dev (Some l) size offset = Some r
                /\ retval r = size
                /\ putc_bytes (emitted r) = firstn (Z.to_nat size) l
                /\ count_calls is_putc (emitted r) = Z.to_nat size
                /\ buffer_after r = Some l).
Proof.
  intros Hsize Hmax.
  assert (Hrange : INT64_MIN <= size <= INT64_MAX)
    by (unfold INT64_MIN; pow_numerals; lia).
  assert (Hcount : forall l0 : list byte,
             List.length (filter is_putc (putc_calls l0)) = List.length l0).
  { induction l0 as [|c l0 IH]; [reflexivity|]. cbn. f_equal. exact IH. }
  assert (Hlen : List.length (firstn (Z.to_nat size) l) = Z.to_nat size)
    by (rewrite length_firstn; lia).
  split; eexists.
  - split; [apply dummy_console_write_spec; exact Hsize|]. cbn [retval emitted buffer_after].
    split; [apply to_int64_in_range, Hrange|].
    split; [rewrite putc_bytes_app, putc_bytes_putc_calls; cbn; apply app_nil_r|].
    split; [|reflexivity].
    unfold count_calls. rewrite filter_app, length_app, Hcount, Hlen. cbn. lia.
  - split; [apply Write_spec; exact Hsize|]. cbn [retval emitted buffer_after].
    split; [apply to_int64_in_range, Hrange|].
    split; [apply putc_bytes_putc_calls|].
    split; [|reflexivity].
    unfold count_calls. rewrite Hcount, Hlen. reflexivity.
Qed.

(** X5 at the first two bytes of "hello". *)
Lemma console_write_he_of_hello :
  (exists r, main_c.dummy_console_write main_c.dummy_console_instance
               (Some ["h"%byte; "e"%byte; "l"%byte; "l"%byte; "o"%byte]) 2 0 = Some r
             /\ retval r = 2
             /\ putc_bytes (emitted r) = ["h"%byte; "e"%byte]
             /\ count_calls is_putc (emitted r) = 2%nat
             /\ buffer_after r = Some ["h"%byte; "e"%byte; "l"%byte; "l"%byte; "o"%byte])
  /\ (exists r, main_cpp.Kernel.Write main_cpp.Kernel.g_console_device
                  (Some ["h"%byte; "e"%byte; "l"%byte; "l"%byte; "o"%byte]) 2 0 = Some r
                /\ retval r = 2
                /\ putc_bytes (emitted r) = ["h"%byte; "e"%byte]
                /\ count_calls is_putc (emitted r) = 2%nat
                /\ buffer_after r = Some ["h"%byte; "e"%byte; "l"%byte; "l"%byte; "o"%byte]).
Proof.
  apply (console_write_emits_first_size_bytes main_c.dummy_console_instance
           main_cpp.Kernel.g_console_device
           ["h"%byte; "e"%byte; "l"%byte; "l"%byte; "o"%byte] 2 0).
  - cbn. lia.
  - vm_compute. discriminate.
Defined.

(** X6: argument checks of the writes.  [KernelConsoleDevice::Write]
    returns 0 for size 0 whatever the buffer, and
    [KERROR_INVALID_ARGUMENT] for a null buffer with a non-zero size,
    in both cases with device, buffer and console untouched.
    [dummy_console_write] with size 0 returns 0 and makes no
    [low_level_console_putc] call whatever the buffer, null included,
    but still sets its status to 2. *)
Theorem console_write_argument_checks
    (st : main_c.DummyConsoleState_t) (dev : main_cpp.Kernel.KernelConsoleDevice)
    (offset : Z) :
  (forall buffer,
      main_cpp.Kernel.Write dev buffer 0 offset = Some (IoResult 0 dev buffer []))
  /\ (forall size, size <> 0 ->
        main_cpp.Kernel.Write dev None size offset
        = Some (IoResult KERROR_INVALID_ARGUMENT dev None []))
  /\ (forall buffer,
        exists r, main_c.dummy_console_write st buffer 0 offset = Some r
                  /\ retval r = 0
                  /\ putc_bytes (emitted r) = []
                  /\ buffer_after r = buffer
                  /\ state_after r = {| main_c.dummy_status := 2 |}).
Proof.
  split; [intros buffer; reflexivity|].
  split.
  - intros size Hs. unfold main_cpp.Kernel.Write.
    destruct (Z.eqb_spec size 0) as [H0|_]; [contradiction | reflexivity].
  - intros buffer. eexists. split; [reflexivity|]. cbn. repeat split.
Qed.

(** X6 at a null buffer with sizes 0 and 7. *)
Lemma console_write_null_0_and_7 :
  main_cpp.Kernel.Write main_cpp.Kernel.g_console_device None 0 0
  = Some (IoResult 0 main_cpp.Kernel.g_console_device None [])
  /\ main_cpp.Kernel.Write main_cpp.Kernel.g_console_device None 7 0
     = Some (IoResult KERROR_INVALID_ARGUMENT main_cpp.Kernel.g_console_device None []).
Proof.
  destruct (console_write_argument_checks main_c.dummy_console_instance
              main_cpp.Kernel.g_console_device 0) as [Hzero [Hnull _]].
  split; [apply Hzero | apply Hnull; lia].
Defined.

(* ================================================================== *)
(** ** The provider state is write-only; read then write *)

(** X7: no operation ever reads the provider's state.  Started from
    any two states, each read, write and control of either provider
    returns the same value, leaves the same buffer and makes the same
    console calls (and is undefined for the same arguments). *)
Theorem console_results_independent_of_state
    (set_mode : Z) (block : main_c.DummyConsoleState_t -> Z -> main_c.DummyConsoleState_t)
    (st1 st2 : main_c.DummyConsoleState_t)
    (dev1 dev2 : main_cpp.Kernel.KernelConsoleDevice)
    (buffer : option (list byte)) (size offset request arg : Z) :
  observable (main_c.dummy_console_read st1 buffer size offset)
  = observable (main_c.dummy_console_read st2 buffer size offset)
  /\ observable (main_c.dummy_console_write st1 buffer size offset)
     = observable (main_c.dummy_console_write st2 buffer size offset)
  /\ fst (main_c.dummy_console_control set_mode block st1 request arg)
     = fst (main_c.dummy_console_control set_mode block st2 request arg)
  /\ observable (main_cpp.Kernel.Read dev1 buffer size offset)
     = observable (main_cpp.Kernel.Read dev2 buffer size offset)
  /\ observable (main_cpp.Kernel.Write dev1 buffer size offset)
     = observable (main_cpp.Kernel.Write dev2 buffer size offset)
  /\ fst (main_cpp.Kernel.Control dev1 request arg)
     = fst (main_cpp.Kernel.Control dev2 request arg).
Proof.
  unfold main_c.dummy_console_read, main_c.dummy_console_write,
    main_cpp.Kernel.Read, main_cpp.Kernel.Write.
  destruct (size =? 0); [repeat split|].
  destruct buffer as [l|]; [|repeat split].
  unfold bind_ub. cbv zeta.
  repeat split;
    try reflexivity;
    match goal with
    | |- context [store ?b ?i ?v] => destruct (store b i v); reflexivity
    | |- context [for_loop ?n ?i ?f] => destruct (for_loop n i f); reflexivity
    end.
Qed.

(** X8: read, then write what was read.  After a read with a non-zero
    size into a non-empty array, a write of the returned count from
    the same buffer returns 1 and hands exactly the byte just read
    ('A' for the dummy console, 'B' for the C++ device) to
    [low_level_console_putc]. *)
Theorem console_read_then_write_echoes
    (st : main_c.DummyConsoleState_t) (dev : main_cpp.Kernel.KernelConsoleDevice)
    (l : list byte) (size offset offset' : Z) :
  size <> 0 ->
  l <> [] ->
  (exists r1 r2,
      main_c.dummy_console_read st (Some l) size offset = Some r1
      /\ main_c.dummy_console_write (state_after r1) (buffer_after r1) (retval r1) offset'
         = Some r2
      /\ retval r2 = 1
      /\ putc_bytes (emitted r2) = ["A"%byte]
      /\ buffer_after r2 = Some ("A"%byte :: tl l))
  /\ (exists r1 r2,
         main_cpp.Kernel.Read dev (Some l) size offset = Some r1
         /\ main_cpp.Kernel.Write (state_after r1) (buffer_after r1) (retval r1) offset'
            = Some r2
         /\ retval r2 = 1
         /\ emitted r2 = [Ev (low_level_console_putc "B"%byte)]
         /\ buffer_after r2 = Some ("B"%byte :: tl l)).
Proof.
  intros Hs Hl. split; eexists; eexists.
  - split.
    { unfold main_c.dummy_console_read.
      destruct (Z.eqb_spec size 0) as [H0|_]; [contradiction|].
      rewrite store_head by exact Hl. reflexivity. }
    cbn [state_after buffer_after retval].
    split; [apply dummy_console_write_spec; cbn; lia|].
    repeat split.
  - split.
    { unfold main_cpp.Kernel.Read.
      destruct (Z.eqb_spec size 0) as [H0|_]; [contradiction|].
      rewrite store_head by exact Hl. reflexivity. }
    cbn [state_after buffer_after retval].
    split; [apply Write_spec; cbn; lia|].
    repeat split.
Qed.

(** X8 at the buffer "xyz" read with size 3. *)
Lemma console_echo_xyz :
  (exists r1 r2,
      main_c.dummy_console_read main_c.dummy_console_instance
        (Some ["x"%byte; "y"%byte; "z"%byte]) 3 0 = Some r1
      /\ main_c.dummy_console_write (state_after r1) (buffer_after r1) (retval r1) 0
         = Some r2
      /\ retval r2 = 1
      /\ putc_bytes (emitted r2) = ["A"%byte]
      /\ buffer_after r2 = Some ["A"%byte; "y"%byte; "z"%byte])
  /\ (exists r1 r2,
         main_cpp.Kernel.Read main_cpp.Kernel.g_console_device
           (Some ["x"%byte; "y"%byte; "z"%byte]) 3 0 = Some r1
         /\ main_cpp.Kernel.Write (state_after r1) (buffer_after r1) (retval r1) 0
            = Some r2
         /\ retval r2 = 1
         /\ emitted r2 = [Ev (low_level_console_putc "B"%byte)]
         /\ buffer_after r2 = Some ["B"%byte; "y"%byte; "z"%byte]).
Proof.
  apply (console_read_then_write_echoes main_c.dummy_console_instance
           main_cpp.Kernel.g_console_device ["x"%byte; "y"%byte; "z"%byte] 3 0 0).
  - lia.
  - discriminate.
Defined.

(* ================================================================== *)
(** ** Start-up failures *)

Lemma hang_fixed (w : world) (rest : prog unit) (t : trace) :
  step w (While1 skip rest, t) = (While1 skip rest, t).
Proof. reflexivity. Qed.

Lemma filter_firstn_nil (f : event -> bool) (n : nat) :
  forall t, filter f t = [] -> filter f (firstn n t) = [].
Proof.
  induction n as [|n IH]; intros t Ht; [reflexivity|].
  destruct t as [|e t]; [reflexivity|].
  cbn in *. destruct (f e); [discriminate Ht | apply IH, Ht].
Qed.

Lemma count_calls_firstn_le (f : event -> bool) (n : nat) :
  forall t, (count_calls f (firstn n t) <= count_calls f t)%nat.
Proof.
  unfold count_calls.
  induction n as [|n IH]; intros t; [cbn; lia|].
  destruct t as [|e t]; [cbn; lia|].
  cbn. specialize (IH t). destruct (f e); cbn; lia.
Qed.

Lemma count_calls_firstn_zero (f : event -> bool) (n : nat) (t : trace) :
  count_calls f t = 0%nat -> count_calls f (firstn n t) = 0%nat.
Proof.
  intros Ht. pose proof (count_calls_firstn_le f n t). lia.
Qed.

(** A [main] that has reached a [while (1);] after [k] calls has made,
    at every step, the first so many of those calls. *)
Lemma calls_after_hang (main : prog unit) (w : world) (k : nat) (t : trace) :
  (exists rest, run k w (boot main) = (While1 skip rest, t)) ->
  (forall n, (n < k)%nat -> calls_after main w n = firstn n t) ->
  List.length t = k ->
  forall n, calls_after main w n = firstn n t.
Proof.
  intros [rest Hk] Hbefore Hlen n.
  destruct (Nat.lt_ge_cases n k) as [Hn|Hn]; [apply Hbefore, Hn|].
  unfold calls_after. rewrite (run_from w k n) by exact Hn. rewrite Hk.
  rewrite run_fixed by apply hang_fixed.
  rewrite firstn_all2 by lia. reflexivity.
Qed.

Lemma main_c_register_failure_calls (w : world) (n : nat) :
  register_returns w < 0 ->
  calls_after main_c.main w n = firstn n register_failure_calls_c.
Proof.
  intros Hr. apply Z.ltb_lt in Hr.
  apply (calls_after_hang main_c.main w 5).
  - eexists. run_main Hr Hr. reflexivity.
  - intros m Hm.
    do 5 (destruct m as [|m]; [run_main Hr Hr; reflexivity|]). lia.
  - reflexivity.
Qed.

Lemma main_cpp_register_failure_calls (w : world) (n : nat) :
  register_returns w < 0 ->
  calls_after main_cpp.main w n = firstn n register_failure_calls_cpp.
Proof.
  intros Hr. apply Z.ltb_lt in Hr.
  apply (calls_after_hang main_cpp.main w 7).
  - eexists. run_main Hr Hr. reflexivity.
  - intros m Hm.
    do 7 (destruct m as [|m]; [run_main Hr Hr; reflexivity|]). lia.
  - reflexivity.
Qed.

Lemma main_c_spawn_failure_calls (w : world) (n : nat) :
  0 <= register_returns w -> spawn_returns w < 0 ->
  calls_after main_c.main w n = firstn n spawn_failure_calls_c.
Proof.
  intros Hr Hs. apply Z.ltb_ge in Hr. apply Z.ltb_lt in Hs.
  apply (calls_after_hang main_c.main w 6).
  - eexists. run_main Hr Hs. reflexivity.
  - intros m Hm.
    do 6 (destruct m as [|m]; [run_main Hr Hs; reflexivity|]). lia.
  - reflexivity.
Qed.

Lemma main_cpp_spawn_failure_calls (w : world) (n : nat) :
  0 <= register_returns w -> spawn_returns w < 0 ->
  calls_after main_cpp.main w n = firstn n spawn_failure_calls_cpp.
Proof.
  intros Hr Hs. apply Z.ltb_ge in Hr. apply Z.ltb_lt in Hs.
  apply (calls_after_hang main_cpp.main w 8).
  - eexists. run_main Hr Hs. reflexivity.
  - intros m Hm.
    do 8 (destruct m as [|m]; [run_main Hr Hs; reflexivity|]). lia.
  - reflexivity.
Qed.

Lemma main_c_success_calls (w : world) (n : nat) :
  0 <= register_returns w -> 0 <= spawn_returns w ->
  calls_after main_c.main w n = firstn n startup_calls_c.
Proof.
  intros Hr Hs. destruct (Nat.lt_ge_cases n 7) as [Hn|Hn].
  - apply main_c_success_before_idle; assumption.
  - unfold calls_after. rewrite main_c_success_idle by assumption.
    rewrite firstn_all2 by (cbn; lia). reflexivity.
Qed.

Lemma main_cpp_success_calls (w : world) (n : nat) :
  0 <= register_returns w -> 0 <= spawn_returns w ->
  exists j, calls_after main_cpp.main w n
            = firstn n startup_calls_cpp ++ repeat (Ev this_thread_yield) j.
Proof.
  intros Hr Hs. destruct (Nat.lt_ge_cases n 8) as [Hn|Hn].
  - exists 0%nat. cbn [repeat]. rewrite app_nil_r.
    apply main_cpp_success_before_idle; assumption.
  - unfold calls_after. rewrite (run_from w 8 n) by exact Hn.
    rewrite main_cpp_success_reaches_idle by assumption.
    destruct (main_cpp_idle_closed w (n - 8) (main_cpp.idle_loop, startup_calls_cpp))
      as [_ [j Hj]]; [left; reflexivity|].
    exists j. rewrite Hj. cbn [snd].
    rewrite firstn_all2 by (cbn; lia). reflexivity.
Qed.

(** X9: when registration fails (a negative result), each [main]
    reports it through [low_level_panic] and hangs: at every step the
    calls made are the first so many of hardware init, memory init,
    (main.cpp: global constructors, the '>' marker,) [karnal_init], the
    registration, and one panic with the registration message.  The
    initial task is never spawned and the scheduler is never entered. *)
Theorem main_register_failure_panics_and_hangs (w : world) (n : nat) :
  register_returns w < 0 ->
  (calls_after main_c.main w n = firstn n register_failure_calls_c
   /\ count_calls is_spawn (calls_after main_c.main w n) = 0%nat
   /\ count_calls is_scheduler_entry (calls_after main_c.main w n) = 0%nat)
  /\ (calls_after main_cpp.main w n = firstn n register_failure_calls_cpp
      /\ count_calls is_spawn (calls_after main_cpp.main w n) = 0%nat
      /\ count_calls is_scheduler_entry (calls_after main_cpp.main w n) = 0%nat).
Proof.
  intros Hr.
  rewrite (main_c_register_failure_calls w n Hr).
  rewrite (main_cpp_register_failure_calls w n Hr).
  repeat split; apply count_calls_firstn_zero; reflexivity.
Qed.

(** X9 in a world where registration answers [KERROR_ALREADY_EXISTS],
    nine steps in. *)
Lemma main_register_failure_already_exists :
  (calls_after main_c.main world_register_fails 9 = register_failure_calls_c
   /\ count_calls is_spawn (calls_after main_c.main world_register_fails 9) = 0%nat
   /\ count_calls is_scheduler_entry (calls_after main_c.main world_register_fails 9)
      = 0%nat)
  /\ (calls_after main_cpp.main world_register_fails 9 = register_failure_calls_cpp
      /\ count_calls is_spawn (calls_after main_cpp.main world_register_fails 9) = 0%nat
      /\ count_calls is_scheduler_entry (calls_after main_cpp.main world_register_fails 9)
         = 0%nat).
Proof.
  apply (main_register_failure_panics_and_hangs world_register_fails 9).
  vm_compute. reflexivity.
Defined.

(** X10: when registration succeeds and the spawn fails, each [main]
    panics once with the spawn message and hangs: at every step the
    calls made are the first so many of the start-up calls up to the
    spawn followed by that panic; [karnal_scheduler_start] and
    [low_power_idle_loop] are never called. *)
Theorem main_spawn_failure_panics_and_hangs (w : world) (n : nat) :
  0 <= register_returns w ->
  spawn_returns w < 0 ->
  (calls_after main_c.main w n = firstn n spawn_failure_calls_c
   /\ count_calls is_scheduler_entry (calls_after main_c.main w n) = 0%nat)
  /\ (calls_after main_cpp.main w n = firstn n spawn_failure_calls_cpp
      /\ count_calls is_scheduler_entry (calls_after main_cpp.main w n) = 0%nat).
Proof.
  intros Hr Hs.
  rewrite (main_c_spawn_failure_calls w n Hr Hs).
  rewrite (main_cpp_spawn_failure_calls w n Hr Hs).
  repeat split; apply count_calls_firstn_zero; reflexivity.
Qed.

(** X10 in a world where spawn answers [KERROR_OUT_OF_MEMORY], nine
    steps in. *)
Lemma main_spawn_failure_out_of_memory :
  (calls_after main_c.main world_spawn_fails 9 = spawn_failure_calls_c
   /\ count_calls is_scheduler_entry (calls_after main_c.main world_spawn_fails 9) = 0%nat)
  /\ (calls_after main_cpp.main world_spawn_fails 9 = spawn_failure_calls_cpp
      /\ count_calls is_scheduler_entry (calls_after main_cpp.main world_spawn_fails 9)
         = 0%nat).
Proof.
  apply (main_spawn_failure_panics_and_hangs world_spawn_fails 9).
  - vm_compute. discriminate.
  - vm_compute. reflexivity.
Defined.

Lemma count_calls_app (f : event -> bool) (t1 t2 : trace) :
  count_calls f (t1 ++ t2) = (count_calls f t1 + count_calls f t2)%nat.
Proof. unfold count_calls. rewrite filter_app. apply length_app. Qed.

Lemma count_calls_yields (f : event -> bool) (j : nat) :
  f (Ev this_thread_yield) = false ->
  count_calls f (repeat (Ev this_thread_yield) j) = 0%nat.
Proof.
  intros Hf. unfold count_calls.
  induction j as [|j IH]; [reflexivity|]. cbn. rewrite Hf. exact IH.
Qed.

(** X11: [low_level_panic] is the failure report and nothing else.  In
    every execution of either [main] it is called at most once, and if
    it has been called then registration or spawn returned a negative
    value. *)
Theorem main_panics_only_on_failure (w : world) (n : nat) :
  ((count_calls is_panic (calls_after main_c.main w n) <= 1)%nat
   /\ (count_calls is_panic (calls_after main_c.main w n) <> 0%nat ->
       register_returns w < 0 \/ spawn_returns w < 0))
  /\ ((count_calls is_panic (calls_after main_cpp.main w n) <= 1)%nat
      /\ (count_calls is_panic (calls_after main_cpp.main w n) <> 0%nat ->
          register_returns w < 0 \/ spawn_returns w < 0)).
Proof.
  destruct (Z.lt_ge_cases (register_returns w) 0) as [Hr|Hr].
  - rewrite (main_c_register_failure_calls w n Hr).
    rewrite (main_cpp_register_failure_calls w n Hr).
    split; (split; [|intros _; left; exact Hr]).
    + apply (Nat.le_trans _ _ _ (count_calls_firstn_le _ _ _)). cbn. lia.
    + apply (Nat.le_trans _ _ _ (count_calls_firstn_le _ _ _)). cbn. lia.
  - destruct (Z.lt_ge_cases (spawn_returns w) 0) as [Hs|Hs].
    + rewrite (main_c_spawn_failure_calls w n Hr Hs).
      rewrite (main_cpp_spawn_failure_calls w n Hr Hs).
      split; (split; [|intros _; right; exact Hs]).
      * apply (Nat.le_trans _ _ _ (count_calls_firstn_le _ _ _)). cbn. lia.
      * apply (Nat.le_trans _ _ _ (count_calls_firstn_le _ _ _)). cbn. lia.
    + rewrite (main_c_success_calls w n Hr Hs).
      destruct (main_cpp_success_calls w n Hr Hs) as [j ->].
      assert (Hc : count_calls is_panic (firstn n startup_calls_c) = 0%nat)
        by (apply count_calls_firstn_zero; reflexivity).
      assert (Hx : count_calls is_panic
                     (firstn n startup_calls_cpp ++ repeat (Ev this_thread_yield) j)
                   = 0%nat).
      { rewrite count_calls_app, count_calls_yields by reflexivity.
        rewrite count_calls_firstn_zero by reflexivity. reflexivity. }
      rewrite Hc, Hx. split; (split; [lia | intros H; contradiction H; reflexivity]).
Qed.

(** X11 where spawn has failed: one panic, and the spawn result is
    negative. *)
Lemma main_panics_once_when_spawn_fails :
  count_calls is_panic (calls_after main_c.main world_spawn_fails 9) = 1%nat
  /\ count_calls is_panic (calls_after main_cpp.main world_spawn_fails 9) = 1%nat
  /\ (register_returns world_spawn_fails < 0 \/ spawn_returns world_spawn_fails < 0).
Proof.
  destruct (main_panics_only_on_failure world_spawn_fails 9) as [[_ Hc] _].
  split; [reflexivity|]. split; [reflexivity|].
  apply Hc. vm_compute. discriminate.
Defined.

(* ================================================================== *)
(** ** The idle loop of main.cpp, the arguments of the calls, the console *)

Lemma main_cpp_idle_iterations (w : world) (k : nat) :
  forall t, run (2 * k) w (main_cpp.idle_loop, t)
            = (main_cpp.idle_loop, t ++ repeat (Ev this_thread_yield) k).
Proof.
  induction k as [|k IH]; intros t.
  - cbn. rewrite app_nil_r. reflexivity.
  - replace (2 * S k)%nat with (2 + 2 * k)%nat by lia.
    rewrite run_add.
    change (run 2 w (main_cpp.idle_loop, t))
      with (main_cpp.idle_loop, t ++ [Ev this_thread_yield]).
    rewrite IH, <- app_assoc. reflexivity.
Qed.

(** X12: the last loop of main.cpp yields once per iteration, without
    end.  After a successful start-up (8 calls) and [k] further
    iterations (2 steps each) [main] is at the head of the loop again
    and has called [std::this_thread::yield] exactly [k] times after
    the start-up calls. *)
Theorem main_cpp_idle_loop_yields_each_iteration (w : world) (k : nat) :
  0 <= register_returns w ->
  0 <= spawn_returns w ->
  run (8 + 2 * k) w (boot main_cpp.main)
  = (main_cpp.idle_loop, startup_calls_cpp ++ repeat (Ev this_thread_yield) k)
  /\ count_calls is_yield (calls_after main_cpp.main w (8 + 2 * k)) = k.
Proof.
  intros Hr Hs.
  assert (Hrun : run (8 + 2 * k) w (boot main_cpp.main)
                 = (main_cpp.idle_loop,
                    startup_calls_cpp ++ repeat (Ev this_thread_yield) k)).
  { rewrite run_add, main_cpp_success_reaches_idle by assumption.
    apply main_cpp_idle_iterations. }
  split; [exact Hrun|].
  unfold calls_after. rewrite Hrun. cbn [snd].
  rewrite count_calls_app. unfold count_calls at 2.
  clear. induction k as [|k IH]; [reflexivity|].
  cbn [repeat filter is_yield List.length]. rewrite Nat.add_succ_r. f_equal. exact IH.
Qed.

(** X12 after three iterations of the loop. *)
Lemma main_cpp_three_yields :
  run (8 + 2 * 3) world_ok (boot main_cpp.main)
  = (main_cpp.idle_loop,
     startup_calls_cpp
     ++ [Ev this_thread_yield; Ev this_thread_yield; Ev this_thread_yield])
  /\ count_calls is_yield (calls_after main_cpp.main world_ok (8 + 2 * 3)) = 3%nat.
Proof.
  apply (main_cpp_idle_loop_yields_each_iteration world_ok 3).
  - cbn. lia.
  - cbn. lia.
Defined.

Lemma main_c_never_bad_arguments : never_calls bad_arguments main_c.main.
Proof. unfold main_c.main. walk_main. Qed.

Lemma main_cpp_never_bad_arguments : never_calls bad_arguments main_cpp.main.
Proof. unfold main_cpp.main. walk_main. Qed.

(** X13: pointer and length travel together.  In every execution of
    either [main], every registration made passes as [id_len] the
    length of the identifier it passes, and every spawn made passes a
    null argument pointer with length 0. *)
Theorem main_passes_matching_lengths (w : world) (n : nat) :
  count_calls bad_arguments (calls_after main_c.main w n) = 0%nat
  /\ count_calls bad_arguments (calls_after main_cpp.main w n) = 0%nat
  /\ forallb (fun e => negb (bad_arguments e)) (calls_after main_c.main w n) = true
  /\ forallb (fun e => negb (bad_arguments e)) (calls_after main_cpp.main w n) = true.
Proof.
  assert (Hall : forall t, filter bad_arguments t = [] ->
                           forallb (fun e => negb (bad_arguments e)) t = true).
  { induction t as [|e t IH]; [reflexivity|]. cbn.
    destruct (bad_arguments e); [discriminate|]. exact IH. }
  pose proof (run_never_calls bad_arguments w n (boot main_c.main)
                main_c_never_bad_arguments) as [_ Hc].
  pose proof (run_never_calls bad_arguments w n (boot main_cpp.main)
                main_cpp_never_bad_arguments) as [_ Hx].
  unfold count_calls, calls_after. cbn [boot snd filter] in Hc, Hx.
  rewrite Hc, Hx.
  split; [reflexivity|]. split; [reflexivity|].
  split; apply Hall; assumption.
Qed.

Lemma main_c_never_putc : never_calls is_putc main_c.main.
Proof. unfold main_c.main. walk_main. Qed.

Lemma main_cpp_marker (w : world) :
  exists p, run 4 w (boot main_cpp.main)
            = (p, [Ev low_level_hardware_init; Ev low_level_memory_init;
                   Ev call_global_ctors; Ev (low_level_console_putc ">"%byte)])
            /\ never_calls is_putc p.
Proof.
  eexists. split; [reflexivity|]. walk_main.
Qed.

Lemma putc_bytes_filter (t : trace) : putc_bytes (filter is_putc t) = putc_bytes t.
Proof.
  induction t as [|e t IH]; [reflexivity|].
  destruct e as [X c]. destruct c; cbn; rewrite ?IH; reflexivity.
Qed.

(** X14: what [main] itself writes to the low-level console.  main.c
    never calls [low_level_console_putc]; main.cpp calls it exactly
    once, with '>', as its fourth call (after the global constructors,
    before [karnal_init]), and never again, whether the start-up
    succeeds or fails. *)
Theorem main_console_output (w : world) (n : nat) :
  putc_bytes (calls_after main_c.main w n) = []
  /\ putc_bytes (calls_after main_cpp.main w n)
     = (if (4 <=? n)%nat then [">"%byte] else []).
Proof.
  split.
  - rewrite <- putc_bytes_filter. unfold calls_after.
    destruct (run_never_calls is_putc w n (boot main_c.main) main_c_never_putc)
      as [_ Hf].
    rewrite Hf. reflexivity.
  - destruct (Nat.leb_spec 4 n) as [Hn|Hn].
    + destruct (main_cpp_marker w) as [p [Hrun Hp]].
      rewrite <- putc_bytes_filter. unfold calls_after.
      rewrite (run_from w 4 n) by exact Hn. rewrite Hrun.
      destruct (run_never_calls is_putc w (n - 4)
                  (p, [Ev low_level_hardware_init; Ev low_level_memory_init;
                       Ev call_global_ctors; Ev (low_level_console_putc ">"%byte)]) Hp)
        as [_ Hf].
      rewrite Hf. reflexivity.
    + do 4 (destruct n as [|n]; [reflexivity|]). lia.
Qed.
